(** * A shallow embedding of the GitHub tag resolver, the deferred
    configuration holder, the interactive prompt and the logging guard of
    [setup.py] (agoose77/setup). *)

From stdpp Require Import base gmap list strings.
From Stdlib Require Import String Ascii ZArith DecimalString DecimalPos.
Open Scope string_scope.
Set Warnings "-register-all".

(* ================================================================== *)
(** ** Python values, exceptions and the error monad                  *)
(* ================================================================== *)

(** The exceptions the modelled code raises or lets through. *)
Inductive exn : Type :=
| KeyError (k : string)             (** [d[k]] on a dict without [k] *)
| TypeError (msg : string)          (** bad subscript, iteration or [in] *)
| ValueError (msg : string)         (** [raise ValueError(...)], unpacking *)
| JSONDecodeError                   (** [json.loads] of a non-JSON body *)
| TokenInvalidError (msg : string)  (** [class TokenInvalidError(ValueError)] *)
| HTTPError (code : Z)              (** [urllib.error.HTTPError] *)
| URLError (reason : string)        (** other transport failures *)
| AttributeError (k : string)       (** [object.__getattribute__] miss *)
| EOFError                          (** [input()] at end of stdin *)
| RecursionError                    (** interpreter recursion limit *)
| UserError (tag : string).         (** any exception of a producer/converter *)

(** [except ValueError:] also catches its subclasses. *)
Definition is_value_error (e : exn) : bool :=
  match e with
  | ValueError _ | TokenInvalidError _ | JSONDecodeError => true
  | _ => false
  end.

(** Normal return or a raised exception. *)
Inductive res (A : Type) : Type :=
| Ok (a : A)
| Err (e : exn).
Arguments Ok {A} a.
Arguments Err {A} e.

Definition bind {A B} (m : res A) (f : A -> res B) : res B :=
  match m with Ok a => f a | Err e => Err e end.
Notation "x <- m ;; k" := (bind m (fun x => k))
  (at level 100, m at next level, right associativity).

Fixpoint mapM {A B} (f : A -> res B) (l : list A) : res (list B) :=
  match l with
  | [] => Ok []
  | x :: l' => y <- f x ;; ys <- mapM f l' ;; Ok (y :: ys)
  end.

(** Decimal rendering of a Python [int], as [str()] does it. *)
Definition string_of_Z (z : Z) : string := NilZero.string_of_int (Z.to_int z).

(* ================================================================== *)
(** ** JSON values as [json.loads] returns them                        *)
(* ================================================================== *)

(** A parsed JSON document.  Numbers are the integers the GraphQL
    responses carry; an object is the Python [dict] built by
    [json.loads], so its keys are distinct (a later duplicate replaces an
    earlier one while parsing) and in document order. *)
Inductive json : Type :=
| JNull
| JBool (b : bool)
| JNum (n : Z)
| JStr (s : string)
| JArr (l : list json)
| JObj (fields : list (string * json)).

Fixpoint assoc_lookup {A} (k : string) (l : list (string * A)) : option A :=
  match l with
  | [] => None
  | (k', v) :: l' => if String.eqb k k' then Some v else assoc_lookup k l'
  end.

(** [s1 in s2] for two Python strings. *)
Fixpoint str_contains (needle hay : string) : bool :=
  String.prefix needle hay ||
  match hay with
  | EmptyString => false
  | String _ hay' => str_contains needle hay'
  end.

(** The characters of a string, as iterating over it yields them. *)
Fixpoint str_chars (s : string) : list string :=
  match s with
  | EmptyString => []
  | String c s' => String c EmptyString :: str_chars s'
  end.

(** [k in j] for a string [k]. *)
Definition py_contains (k : string) (j : json) : res bool :=
  match j with
  | JObj fs => Ok (if assoc_lookup k fs then true else false)
  | JStr s => Ok (str_contains k s)
  | JArr l => Ok (existsb (fun x => match x with
                                    | JStr s => String.eqb s k
                                    | _ => false end) l)
  | JNull => Err (TypeError "argument of type 'NoneType' is not iterable")
  | JBool _ => Err (TypeError "argument of type 'bool' is not iterable")
  | JNum _ => Err (TypeError "argument of type 'int' is not iterable")
  end.

(** [j[k]] for a string [k]. *)
Definition py_getitem (j : json) (k : string) : res json :=
  match j with
  | JObj fs => match assoc_lookup k fs with
               | Some v => Ok v
               | None => Err (KeyError k)
               end
  | JStr _ => Err (TypeError "string indices must be integers")
  | JArr _ => Err (TypeError "list indices must be integers or slices, not str")
  | _ => Err (TypeError "object is not subscriptable")
  end.

(** [for x in j]. *)
Definition py_iter (j : json) : res (list json) :=
  match j with
  | JArr l => Ok l
  | JObj fs => Ok (map (fun kv => JStr kv.1) fs)
  | JStr s => Ok (map JStr (str_chars s))
  | JNull => Err (TypeError "'NoneType' object is not iterable")
  | JBool _ => Err (TypeError "'bool' object is not iterable")
  | JNum _ => Err (TypeError "'int' object is not iterable")
  end.

(** [repr(j)] (simplified: strings in single quotes, no escaping). *)
Fixpoint json_repr (j : json) : string :=
  match j with
  | JNull => "None"
  | JBool b => if b then "True" else "False"
  | JNum n => string_of_Z n
  | JStr s => "'" ++ s ++ "'"
  | JArr l => "[" ++ String.concat ", " (map json_repr l) ++ "]"
  | JObj fs => "{" ++ String.concat ", "
                 (map (fun kv => "'" ++ kv.1 ++ "': " ++ json_repr kv.2) fs) ++ "}"
  end.

(** [str(j)], as an f-string formats it: a string is inserted as it is,
    everything else as its [repr]. *)
Definition json_str (j : json) : string :=
  match j with
  | JStr s => s
  | _ => json_repr j
  end.

(* ================================================================== *)
(** ** [graphql_errors_to_string] and [execute_github_graphql_query]   *)
(* ================================================================== *)

(** One entry of [locations]:
    [f'(line {p["line"]}, column {p["column"]})']. *)
Definition location_to_string (p : json) : res string :=
  line <- py_getitem p "line" ;;
  column <- py_getitem p "column" ;;
  Ok ("(line " ++ json_str line ++ ", column " ++ json_str column ++ ")").

(** The body of the [for error in errors] loop. *)
Definition graphql_error_line (error : json) : res string :=
  locs <- py_getitem error "locations" ;;
  ps <- py_iter locs ;;
  locations <- mapM location_to_string ps ;;
  message <- py_getitem error "message" ;;
  Ok (json_str message ++ " on " ++ String.concat ", " locations).

Definition newline : string := String "010"%char EmptyString.

Definition graphql_errors_to_string (errors : json) : res string :=
  es <- py_iter errors ;;
  messages <- mapM graphql_error_line es ;;
  Ok (String.concat newline messages).

(** What [request.urlopen(req)] does with the POST: a response whose body
    [json.loads] parses ([None] when it is not JSON), an [HTTPError] with
    its status code, or another transport failure. *)
Inductive http_outcome : Type :=
| HttpOk (body : option json)
| HttpErr (code : Z)
| UrlErr (reason : string).

(** [repr] of a string (simplified: no escaping). *)
Definition str_repr (s : string) : string := "'" ++ s ++ "'".

Definition execute_github_graphql_query (token : string) (o : http_outcome)
    : res json :=
  match o with
  | HttpErr code =>
      if Z.eqb code 401
      then Err (TokenInvalidError ("Token " ++ str_repr token ++ " was invalid!"))
      else Err (HTTPError code)
  | UrlErr r => Err (URLError r)
  | HttpOk None => Err JSONDecodeError
  | HttpOk (Some result) =>
      has_errors <- py_contains "errors" result ;;
      if has_errors then
        errors <- py_getitem result "errors" ;;
        msg <- graphql_errors_to_string errors ;;
        Err (ValueError msg)
      else Ok result
  end.

(* ================================================================== *)
(** ** [find_latest_github_tag]                                         *)
(* ================================================================== *)

(** [class GitTag(NamedTuple)]; the fields hold whatever the response
    carries there (a JSON string for a well-formed response). *)
Record GitTag : Type := mkGitTag { name : json; tarball_url : json }.

(** Dict lookup with both continuations: [found v] when [k] maps to [v],
    [missing] otherwise. *)
Definition lookup_then {A} (k : string) (found : json -> A) (missing : A)
    : list (string * json) -> A :=
  fix go l :=
    match l with
    | [] => missing
    | (k', v) :: l' => if String.eqb k k' then found v else go l'
    end.

(** [while "target" in obj: obj = obj["target"]].  On a dict the test and
    the subscript are one lookup ([obj["target"]] after a successful [in]
    on a dict cannot fail); a string containing ["target"] passes the test
    and then fails the subscript; a list contains it only as an element. *)
Fixpoint follow_targets (obj : json) : res json :=
  match obj with
  | JObj fs => lookup_then "target" follow_targets (Ok obj) fs
  | JStr s =>
      if str_contains "target" s
      then Err (TypeError "string indices must be integers") else Ok obj
  | JArr l =>
      if existsb (fun x => match x with JStr s => String.eqb s "target" | _ => false end) l
      then Err (TypeError "list indices must be integers or slices, not str")
      else Ok obj
  | JNull => Err (TypeError "argument of type 'NoneType' is not iterable")
  | JBool _ => Err (TypeError "argument of type 'bool' is not iterable")
  | JNum _ => Err (TypeError "argument of type 'int' is not iterable")
  end.

(** [(edge,) = edges]: exactly one element, otherwise [ValueError]. *)
Definition unpack_single (edges : list json) : res json :=
  match edges with
  | [edge] => Ok edge
  | [] => Err (ValueError "not enough values to unpack (expected 1, got 0)")
  | _ => Err (ValueError "too many values to unpack (expected 1)")
  end.

(** The part of [find_latest_github_tag] after the query returned. *)
Definition tag_from_result (result : json) : res GitTag :=
  data <- py_getitem result "data" ;;
  repository <- py_getitem data "repository" ;;
  refs <- py_getitem repository "refs" ;;
  edges_j <- py_getitem refs "edges" ;;
  edges <- py_iter edges_j ;;
  edge <- unpack_single edges ;;
  obj <- py_getitem edge "node" ;;
  tag <- py_getitem obj "name" ;;
  obj' <- follow_targets obj ;;
  url <- py_getitem obj' "tarballUrl" ;;
  Ok (mkGitTag tag url).

(** [find_latest_github_tag(token, owner, name)], given what the POST of
    its query returns. *)
Definition find_latest_github_tag (token : string) (o : http_outcome) : res GitTag :=
  result <- execute_github_graphql_query token o ;;
  tag_from_result result.

(** *** The query the function sends *)

(** GitHub's [RefOrderField] and [OrderDirection]. *)
Inductive ref_order_field : Type := ALPHABETICAL | TAG_COMMIT_DATE.
Inductive order_direction : Type := ASC | DESC.

(** The arguments of the [refs(...)] connection in [query_template]:
    [refs(refPrefix: "refs/tags/", first: 1,
          orderBy: {field: ALPHABETICAL, direction: DESC})]. *)
Record refs_query : Type := mkRefsQuery {
  ref_prefix : string;
  first : nat;
  order_field : ref_order_field;
  direction : order_direction }.

Definition find_latest_github_tag_query : refs_query :=
  mkRefsQuery "refs/tags/" 1 ALPHABETICAL DESC.

(** *** The repository the query runs against *)

(** The git object a tag reference points at. *)
Inductive git_object : Type :=
| Commit (oid : string) (tarballUrl : string)
| Tag (tag_name : string) (target : git_object)
| Tree (oid : string)
| Blob (oid : string).

(** A tag reference: its name, the date used by [TAG_COMMIT_DATE] (the
    creation date of the tag or commit, in seconds) and its target. *)
Record tag_ref : Type := mkTagRef {
  ref_name : string;
  ref_date : Z;
  ref_target : git_object }.

(** Order of the connection: [le_field f a b] when [a] comes no later than
    [b] in ascending order of [f]. *)
Definition le_field (f : ref_order_field) (a b : tag_ref) : bool :=
  match f with
  | ALPHABETICAL => String.leb (ref_name a) (ref_name b)
  | TAG_COMMIT_DATE => Z.leb (ref_date a) (ref_date b)
  end.

Definition before (q : refs_query) (a b : tag_ref) : bool :=
  match direction q with
  | ASC => le_field (order_field q) a b
  | DESC => le_field (order_field q) b a
  end.

Fixpoint insert_by (q : refs_query) (x : tag_ref) (l : list tag_ref) : list tag_ref :=
  match l with
  | [] => [x]
  | y :: l' => if before q x y then x :: y :: l' else y :: insert_by q x l'
  end.

Fixpoint sort_by (q : refs_query) (l : list tag_ref) : list tag_ref :=
  match l with
  | [] => []
  | x :: l' => insert_by q x (sort_by q l')
  end.

(** The JSON GraphQL returns for the selection on a [Tag]'s [target]:
    [... on Commit { tarballUrl }] yields an empty object for any other
    kind of object. *)
Definition inner_target_json (o : git_object) : json :=
  match o with
  | Commit _ url => JObj [("tarballUrl", JStr url)]
  | _ => JObj []
  end.

(** The JSON for [target { __typename  ... on Tag {...}  ... on Commit {...} }]. *)
Definition target_json (o : git_object) : json :=
  match o with
  | Commit _ url => JObj [("__typename", JStr "Commit"); ("tarballUrl", JStr url)]
  | Tag n t => JObj [("__typename", JStr "Tag"); ("name", JStr n);
                     ("target", inner_target_json t)]
  | Tree _ => JObj [("__typename", JStr "Tree")]
  | Blob _ => JObj [("__typename", JStr "Blob")]
  end.

Definition edge_json (r : tag_ref) : json :=
  JObj [("node", JObj [("name", JStr (ref_name r)); ("target", target_json (ref_target r))])].

(** The response of the GraphQL service to a [refs] query on a repository
    whose tag references are [refs]: the first [first q] references in
    the requested order. *)
Definition github_refs_response (q : refs_query) (refs : list tag_ref) : http_outcome :=
  HttpOk (Some (JObj [("data", JObj [("repository", JObj [("refs", JObj
    [("edges", JArr (map edge_json (take (first q) (sort_by q refs))))])])])])).

(** The commit a tag reference finally resolves to. *)
Fixpoint peel (o : git_object) : option string :=
  match o with
  | Commit _ url => Some url
  | Tag _ t => peel t
  | _ => None
  end.

(** The most recently created tag reference (by [ref_date]). *)
Fixpoint most_recent (r : tag_ref) (l : list tag_ref) : tag_ref :=
  match l with
  | [] => r
  | x :: l' => most_recent (if Z.ltb (ref_date r) (ref_date x) then x else r) l'
  end.

(* ================================================================== *)
(** ** Python values for the prompt and the configuration holder       *)
(* ================================================================== *)

(** The values stored in a [Config] and passed through [get_user_input].
    [VDeferred p] is a [DeferredValueFactory] instance, [p] its identity;
    [VBuiltin n] stands for an attribute the class or [object] provides
    (a bound method, [__doc__], [__class__], ...). *)
Inductive pyval : Type :=
| VNone
| VBool (b : bool)
| VInt (z : Z)
| VStr (s : string)
| VDeferred (p : nat)
| VBuiltin (n : string).

Definition is_deferred (v : pyval) : bool :=
  match v with VDeferred _ => true | _ => false end.

Definition pyval_repr (v : pyval) : string :=
  match v with
  | VNone => "None"
  | VBool b => if b then "True" else "False"
  | VInt z => string_of_Z z
  | VStr s => str_repr s
  | VDeferred _ => "<__main__.DeferredValueFactory object>"
  | VBuiltin n => "<" ++ n ++ ">"
  end.

Definition pyval_str (v : pyval) : string :=
  match v with VStr s => s | _ => pyval_repr v end.

(* ================================================================== *)
(** ** [get_user_input]                                                 *)
(* ================================================================== *)

(** The text [input] shows: [f"{prompt}: "] or [f"{prompt} [{default}]: "]. *)
Definition prompt_text (prompt : string) (default : option pyval) : string :=
  match default with
  | None => prompt ++ ": "
  | Some d => prompt ++ " [" ++ pyval_str d ++ "]: "
  end.

(** [get_user_input(prompt, default, converter)], with [None] for
    [NO_DEFAULT] and for [converter=None].  The converter is a function
    that returns or raises.  [stdin] holds the lines [input] will read and
    [out] collects what is written: the prompts and the messages [log]
    prints.  Each turn of [while True] reads one line, so the loop is a
    recursion on [stdin]; [input] at the end of stdin raises [EOFError]. *)
Fixpoint get_user_input (prompt : string) (default : option pyval)
    (converter : option (pyval -> res pyval)) (stdin : list string)
    (out : list string) : res pyval * (list string * list string) :=
  let shown := prompt_text prompt default in
  match stdin with
  | [] => (Err EOFError, ([], app out [shown]))
  | line :: rest =>
      let out1 := app out [shown] in
      let convert (value : pyval) :=
        match converter with
        | None => (Ok value, (rest, out1))
        | Some c =>
            match c value with
            | Ok v => (Ok v, (rest, out1))
            | Err e =>
                if is_value_error e
                then get_user_input prompt default converter rest
                       (app out1 ["Invalid value " ++ pyval_repr value ++ "! Try again."])
                else (Err e, (rest, out1))
            end
        end in
      match default with
      | None =>
          if String.eqb line ""
          then get_user_input prompt default converter rest
                 (app out1 ["A value is required! Try again."])
          else convert (VStr line)
      | Some d => convert (if String.eqb line "" then d else VStr line)
      end
  end.

(* ================================================================== *)
(** ** [Config] and [DeferredValueFactory]                              *)
(* ================================================================== *)

(** A producer: the body of the function a [DeferredValueFactory] wraps.
    Producers reach the configuration through attribute reads, as every
    producer of [create_user_config] does ([PGet]), read stdin
    ([PInput]), and return or raise; each continuation receives the
    outcome, so a producer may also catch. *)
Inductive prog : Type :=
| PRet (v : pyval)
| PRaise (e : exn)
| PGet (k : string) (kont : res pyval -> prog)
| PInput (prompt : string) (kont : res pyval -> prog).

(** What happens, in order: attribute reads of the config and calls of a
    [DeferredValueFactory]. *)
Inductive event : Type :=
| EvGet (k : string)
| EvInvoke (p : nat).

(** The instance [__dict__] of the [Config], the events so far, and the
    terminal. *)
Record cstate : Type := mkCstate {
  cdict : gmap string pyval;
  trace : list event;
  cin : list string;
  cout : list string }.

Definition log_event (e : event) (st : cstate) : cstate :=
  mkCstate (cdict st) (app (trace st) [e]) (cin st) (cout st).

Definition set_dict (d : gmap string pyval) (st : cstate) : cstate :=
  mkCstate d (trace st) (cin st) (cout st).

(** Data descriptors on [Config] and [object]: they take precedence over
    the instance dict. *)
Definition data_descriptors : list string := ["__class__"; "__dict__"; "__weakref__"].

(** The other attributes of the class [Config] and of [object]. *)
Definition class_attributes : list string :=
  ["__module__"; "__doc__"; "__getattribute__"; "set";
   "__new__"; "__repr__"; "__hash__"; "__str__"; "__setattr__"; "__delattr__";
   "__lt__"; "__le__"; "__eq__"; "__ne__"; "__gt__"; "__ge__"; "__init__";
   "__reduce_ex__"; "__reduce__"; "__getstate__"; "__subclasshook__";
   "__init_subclass__"; "__format__"; "__sizeof__"; "__dir__"].

Definition mem (k : string) (l : list string) : bool := existsb (String.eqb k) l.

(** [object.__getattribute__(self, item)]. *)
Definition object_getattribute (d : gmap string pyval) (k : string) : res pyval :=
  if mem k data_descriptors then Ok (VBuiltin k)
  else match d !! k with
       | Some v => Ok v
       | None => if mem k class_attributes then Ok (VBuiltin k)
                 else Err (AttributeError k)
       end.

(** [setattr(self, item, value)] ([object.__setattr__]). *)
Definition object_setattr (d : gmap string pyval) (k : string) (v : pyval)
    : res (gmap string pyval) :=
  if String.eqb k "__class__" then Err (TypeError "__class__ must be set to a class")
  else if String.eqb k "__dict__" then Err (TypeError "__dict__ must be set to a dictionary")
  else if String.eqb k "__weakref__"
  then Err (AttributeError "attribute '__weakref__' of 'Config' objects is not writable")
  else Ok (<[k := v]> d).

Section ConfigModel.

(** The function each [DeferredValueFactory] wraps. *)
Variable producers : nat -> prog.

(** Running a producer, given how attribute reads of the config behave. *)
Fixpoint run_prog (getf : string -> cstate -> res pyval * cstate) (p : prog)
    (st : cstate) : res pyval * cstate :=
  match p with
  | PRet v => (Ok v, st)
  | PRaise e => (Err e, st)
  | PGet k kont => let '(r, st') := getf k st in run_prog getf (kont r) st'
  | PInput prompt kont =>
      match cin st with
      | [] => run_prog getf (kont (Err EOFError))
                (mkCstate (cdict st) (trace st) [] (app (cout st) [prompt]))
      | l :: rest => run_prog getf (kont (Ok (VStr l)))
                (mkCstate (cdict st) (trace st) rest (app (cout st) [prompt]))
      end
  end.

(** [Config.__getattribute__(self, item)]: [fuel] is the interpreter's
    remaining recursion depth, each nested read consuming one level. *)
Fixpoint config_get (fuel : nat) (k : string) (st : cstate) : res pyval * cstate :=
  let st0 := log_event (EvGet k) st in
  match fuel with
  | O => (Err RecursionError, st0)
  | S n =>
      match object_getattribute (cdict st0) k with
      | Err e => (Err e, st0)
      | Ok (VDeferred p) =>
          let st1 := log_event (EvInvoke p) st0 in
          match run_prog (config_get n) (producers p) st1 with
          | (Ok v, st2) =>
              match object_setattr (cdict st2) k v with
              | Ok d => (Ok v, set_dict d st2)
              | Err e => (Err e, st2)
              end
          | (Err e, st2) => (Err e, st2)
          end
      | Ok v => (Ok v, st0)
      end
  end.

End ConfigModel.

(** [config.key = value] outside the class, e.g. [config.X = deferred(f)]
    or [Config.set]'s [setattr(self, func.__name__, deferred(func))]. *)
Definition config_set (k : string) (v : pyval) (st : cstate) : res cstate :=
  d <- object_setattr (cdict st) k v ;; Ok (set_dict d st).

(** [Config()]. *)
Definition empty_config (stdin : list string) : cstate := mkCstate ∅ [] stdin [].

(* ================================================================== *)
(** ** Logging: [context] and [installer]                               *)
(* ================================================================== *)

(** The module-level [_depth] and the lines the logger emitted. *)
Record lstate : Type := mkLstate { depth : Z; log_lines : list string }.

(** [prefix()]: ["   " * _depth] (empty for a negative depth). *)
Definition prefix (st : lstate) : string :=
  String.concat "" (repeat "   " (Z.to_nat (depth st))).

(** [log(message)]: one line with the current prefix. *)
Definition log (message : string) (st : lstate) : lstate :=
  mkLstate (depth st) (app (log_lines st) [prefix st ++ message]).

(** [with context(): body].  The generator has no [try/finally]: when the
    body raises, [contextmanager] throws the exception in at the [yield],
    it propagates out of the generator and [_depth -= 1] never runs. *)
Definition context {A} (body : lstate -> res A * lstate) (st : lstate) : res A * lstate :=
  match body (mkLstate (depth st + 1) (log_lines st)) with
  | (Ok v, st2) => (Ok v, mkLstate (depth st2 - 1) (log_lines st2))
  | (Err e, st2) => (Err e, st2)
  end.

(** [installer(func)] applied to arguments, with [func_string] the rendered call. *)
Definition installer {A} (func_string : string) (func : lstate -> res A * lstate)
    (st : lstate) : res A * lstate :=
  let st1 := log ("Running " ++ func_string) st in
  match context (fun s => match func s with
                          | (Ok v, s') => (Ok v, s')
                          | (Err e, s') => (Err e, log ("Execution of " ++ func_string ++ " failed") s')
                          end) st1 with
  | (Ok v, st2) => (Ok v, log ("Finished " ++ func_string) st2)
  | (Err e, st2) => (Err e, st2)
  end.

(* ================================================================== *)
(** ** Auxiliary definitions for the statements                        *)
(* ================================================================== *)

(** A response whose only edge has node [node]. *)
Definition result_with_node (node : json) : json :=
  JObj [("data", JObj [("repository", JObj [("refs", JObj
    [("edges", JArr [JObj [("node", node)]])])])])].

(** A chain of objects, each level holding the next under ["target"]
    after its own fields; the last level has fields [inner]. *)
Fixpoint target_chain (levels : list (list (string * json)))
    (inner : list (string * json)) : json :=
  match levels with
  | [] => JObj inner
  | fs :: ls => JObj (app fs [("target", target_chain ls inner)])
  end.


(** Number of calls of the factory [p] in a trace. *)
Definition count_invocations (p : nat) (tr : list event) : nat :=
  List.length (List.filter (fun e => match e with EvInvoke q => Nat.eqb p q | _ => false end) tr).






(** [st'] is [st] after the events [tr]: the trace grew by [tr], and a
    key the events never read kept its entry. *)
Definition extends (st st' : cstate) (tr : list event) : Prop :=
  trace st' = app (trace st) tr /\
  forall b, ~ In (EvGet b) tr -> cdict st' !! b = cdict st !! b.

(** The archive URL the query exposes for a tag's target: a commit's own
    [tarballUrl], or the one of the commit an annotated tag points at (the
    selection set goes no deeper). *)
Definition query_tarball (o : git_object) : option string :=
  match o with
  | Commit _ url => Some url
  | Tag _ (Commit _ url) => Some url
  | _ => None
  end.

(** A converter accepting only ["3"]. *)
Definition only_three (v : pyval) : res pyval :=
  match v with
  | VStr s => if String.eqb s "3" then Ok (VInt 3) else Err (ValueError "invalid literal for int()")
  | _ => Err (TypeError "int() argument must be a string")
  end.

(** A producer computing [a + 1] from the field ["a"]. *)
Definition succ_of_a (_ : nat) : prog :=
  PGet "a" (fun r => match r with
                     | Ok (VInt z) => PRet (VInt (z + 1))
                     | Ok v => PRet v
                     | Err e => PRaise e
                     end).

Definition config_ab : cstate :=
  mkCstate (<["a" := VInt 1]> {[ "b" := VDeferred 7 ]}) [] [] [].

(** A producer that always fails. *)
Definition always_fails (_ : nat) : prog := PRaise (UserError "producer failed").

(** The GraphQL path never raises [TokenInvalidError]. *)
Definition not_token_invalid {A} (r : res A) : Prop :=
  forall m, r <> Err (TokenInvalidError m).

(* ================================================================== *)
(** ** [str.strip], [str.lower] and [int()] on Python strings           *)
(* ================================================================== *)

(** Characters are the code points 0-255.  [Py_UNICODE_ISSPACE] on them:
    the characters [str.strip()] removes and [int()] skips around the
    digits ([\t \n \v \f \r], [\x1c]-[\x1f], space, [\x85], [\xa0]). *)
Definition is_py_space (c : ascii) : bool :=
  let n := nat_of_ascii c in
  (((9 <=? n) && (n <=? 13)) || ((28 <=? n) && (n <=? 32)) || (n =? 133) || (n =? 160))%nat.

Fixpoint lstrip (s : string) : string :=
  match s with
  | EmptyString => EmptyString
  | String c s' => if is_py_space c then lstrip s' else s
  end.

Fixpoint rstrip (s : string) : string :=
  match s with
  | EmptyString => EmptyString
  | String c s' =>
      let r := rstrip s' in
      if is_py_space c && String.eqb r "" then EmptyString else String c r
  end.

(** [s.strip()]. *)
Definition py_strip (s : string) : string := rstrip (lstrip s).

(** [str.lower()] on one character: [A]-[Z] and the Latin-1 capitals
    [\xc0]-[\xde] except the sign [\xd7] map to their small letters. *)
Definition lower_char (c : ascii) : ascii :=
  let n := nat_of_ascii c in
  if (((65 <=? n) && (n <=? 90)) || ((192 <=? n) && (n <=? 222) && negb (n =? 215)))%nat
  then ascii_of_nat (n + 32)%nat else c.

(** [s.lower()]. *)
Fixpoint py_lower (s : string) : string :=
  match s with
  | EmptyString => EmptyString
  | String c s' => String (lower_char c) (py_lower s')
  end.

Definition digit_value (c : ascii) : option Z :=
  let n := nat_of_ascii c in
  if ((48 <=? n) && (n <=? 57))%nat then Some (Z.of_nat (n - 48)%nat) else None.

(** The digits of a base-10 literal after its sign: at least one digit,
    and an underscore only between two digits; [after_digit] tells
    whether the previous character was a digit. *)
Fixpoint parse_digits (s : string) (acc : Z) (after_digit : bool) : option Z :=
  match s with
  | EmptyString => if after_digit then Some acc else None
  | String c s' =>
      match digit_value c with
      | Some d => parse_digits s' (acc * 10 + d)%Z true
      | None =>
          if after_digit && Ascii.eqb c "_" then parse_digits s' acc false else None
      end
  end.

(** [PyLong_FromString(s, base=10)] after [int()] has turned every
    whitespace character into a space: whitespace, an optional sign, the
    digits, whitespace.  Python 3.11 and later also refuse a literal of
    more than 4300 digits with another [ValueError]; that check is left
    out here, so a statement about the outcome of [int()] on a string
    restricts the literal to at most 4300 digits. *)
Definition parse_int_literal (s : string) : option Z :=
  match py_strip s with
  | EmptyString => None
  | String c t =>
      if Ascii.eqb c "+" then parse_digits t 0%Z false
      else if Ascii.eqb c "-" then option_map Z.opp (parse_digits t 0%Z false)
      else parse_digits (String c t) 0%Z false
  end.

(** [int(v)]. *)
Definition py_int (v : pyval) : res Z :=
  match v with
  | VInt z => Ok z
  | VBool b => Ok (if b then 1 else 0)%Z
  | VStr s =>
      match parse_int_literal s with
      | Some z => Ok z
      | None => Err (ValueError ("invalid literal for int() with base 10: " ++ str_repr s))
      end
  | VNone => Err (TypeError "int() argument must be a string, a bytes-like object or a real number, not 'NoneType'")
  | VDeferred _ => Err (TypeError "int() argument must be a string, a bytes-like object or a real number, not 'DeferredValueFactory'")
  | VBuiltin n => Err (TypeError ("int() argument must be a string, a bytes-like object or a real number, not " ++ n))
  end.

(* ================================================================== *)
(** ** The converters of [create_user_config]                          *)
(* ================================================================== *)

(** [convert_number_threads(n_total_threads, n_threads_str)]. *)
Definition convert_number_threads (n_total_threads : Z) (n_threads_str : pyval) : res pyval :=
  n_threads <- py_int n_threads_str ;;
  if ((0 <? n_threads) && (n_threads <=? n_total_threads))%Z
  then Ok (VInt n_threads)
  else Err (ValueError ("Invalid number of threads " ++ string_of_Z n_threads ++ "!")).

(** [yes_no_to_bool(answer)]: [answer.lower().strip() in {"y", "yes", "1"}]. *)
Definition yes_no_to_bool (answer : string) : bool :=
  mem (py_strip (py_lower answer)) ["y"; "yes"; "1"].

(** [yes_no_to_bool] as the converter of [ROOT_USE_CONDA]; [.lower] of
    anything but a string raises [AttributeError]. *)
Definition yes_no_converter (v : pyval) : res pyval :=
  match v with
  | VStr s => Ok (VBool (yes_no_to_bool s))
  | _ => Err (AttributeError "lower")
  end.

(** [validate_github_token(token)], given what the POST of its test
    query returns. *)
Definition validate_github_token (token : pyval) (o : http_outcome) : res pyval :=
  _ <- execute_github_graphql_query (pyval_str token) o ;; Ok token.

(** The converter of [GITHUB_TOKEN]: [server t] is what the POST of the
    test query sent with token [t] returns. *)
Definition token_converter (server : string -> http_outcome) (v : pyval) : res pyval :=
  validate_github_token v (server (pyval_str v)).

(** The prompt of [N_BUILD_THREADS]: [deferred_user_input("Enter number of
    build threads", config.N_MAX_SYSTEM_THREADS, lambda s:
    convert_number_threads(config.N_MAX_SYSTEM_THREADS, s))], where
    [N_MAX_SYSTEM_THREADS] holds the plain [int] [max_threads]. *)
Definition n_build_threads_input (max_threads : Z) (stdin out : list string)
    : res pyval * (list string * list string) :=
  get_user_input "Enter number of build threads" (Some (VInt max_threads))
    (Some (convert_number_threads max_threads)) stdin out.

(** The prompt of [ROOT_USE_CONDA]. *)
Definition root_use_conda_input (stdin out : list string)
    : res pyval * (list string * list string) :=
  get_user_input "Use Conda package for ROOT?" (Some (VStr "y"))
    (Some yes_no_converter) stdin out.

(** The prompt of [GITHUB_TOKEN]: no default, [validate_github_token] as
    the converter. *)
Definition github_token_input (server : string -> http_outcome) (stdin out : list string)
    : res pyval * (list string * list string) :=
  get_user_input "Enter GitHub personal token" None (Some (token_converter server)) stdin out.

(* ================================================================== *)
(** ** Editing [~/.zshrc]                                              *)
(* ================================================================== *)

(** The contents of [ZSHRC_PATH]: [None] when the file does not exist. *)
Definition zshrc_file := option string.

Definition dquote : string := String "034"%char EmptyString.

(** [s.endswith("\n")]. *)
Fixpoint ends_with_newline (s : string) : bool :=
  match s with
  | EmptyString => false
  | String c EmptyString => Ascii.eqb c "010"
  | String _ s' => ends_with_newline s'
  end.

(** ["\n".join(scripts)]. *)
Definition join_lines (scripts : list string) : string := String.concat newline scripts.

(** [Path.read_text()] opens the file in text mode with universal
    newlines: [\r\n] and a lone [\r] are read as [\n].  ([write_text]
    writes [\n] unchanged on POSIX.) *)
Fixpoint universal_newlines (s : string) : string :=
  match s with
  | EmptyString => EmptyString
  | String c s' =>
      if Ascii.eqb c "013" then
        match s' with
        | String c2 s'' =>
            if Ascii.eqb c2 "010" then String "010" (universal_newlines s'')
            else String "010" (universal_newlines s')
        | EmptyString => String "010" EmptyString
        end
      else String c (universal_newlines s')
  end.

(** [append_to_zshrc( *scripts)]: [touch()] creates a missing file empty,
    [read_text()] reads it, then the new contents are written back.  The
    result is the file afterwards. *)
Definition append_to_zshrc (zshrc : zshrc_file) (scripts : list string) : zshrc_file :=
  let zshrc_contents :=
    universal_newlines (match zshrc with Some c => c | None => "" end) in
  let zshrc_contents :=
    if ends_with_newline zshrc_contents then zshrc_contents else zshrc_contents ++ newline in
  Some (zshrc_contents ++ join_lines scripts).

(** [prepend_to_zshrc( *scripts)]: on a missing file [read_text()] raises
    [FileNotFoundError] before anything is written ([None]); otherwise
    the file afterwards.  The [reload_plumbum_env()] that follows
    re-reads the environment and does not write the file. *)
Definition prepend_to_zshrc (zshrc : zshrc_file) (scripts : list string) : option string :=
  let zshrc_contents := join_lines scripts in
  let zshrc_contents :=
    if ends_with_newline zshrc_contents then zshrc_contents else zshrc_contents ++ newline in
  match zshrc with
  | None => None
  | Some old => Some (zshrc_contents ++ universal_newlines old)
  end.

(** [path_str.split(":")]. *)
Fixpoint split_colon (s : string) : list string :=
  match s with
  | EmptyString => [""]
  | String c s' =>
      if Ascii.eqb c ":" then "" :: split_colon s'
      else match split_colon s' with
           | [] => [String c EmptyString]
           | x :: xs => String c x :: xs
           end
  end.

(** [":".join(path)]. *)
Definition join_colon (path : list string) : string := String.concat ":" path.

(** The loop of [replacer]: each component not yet in [path] is inserted
    at the front. *)
Fixpoint insert_components (components path : list string) : list string :=
  match components with
  | [] => path
  | c :: cs => insert_components cs (if mem c path then path else c :: path)
  end.

(** [replacer(match_obj)], given [match_obj.group(1)]. *)
Definition replacer (components : list string) (path_str : string) : string :=
  "export PATH=" ++ dquote ++ join_colon (insert_components components (split_colon path_str))
  ++ dquote.

(** The group of the pattern, characters other than a double quote and a
    newline repeated greedily: the longest such prefix, and what follows. *)
Fixpoint take_value (s : string) : string * string :=
  match s with
  | EmptyString => (EmptyString, EmptyString)
  | String c s' =>
      if Ascii.eqb c "034" || Ascii.eqb c "010" then (EmptyString, s)
      else let '(v, r) := take_value s' in (String c v, r)
  end.

(** The optional double quote of the pattern: one if there is one. *)
Definition skip_quote (s : string) : string :=
  match s with
  | String c s' => if Ascii.eqb c "034" then s' else s
  | EmptyString => s
  end.

Definition path_marker : string := "export PATH=".

(** [s[n:]]. *)
Fixpoint str_drop (n : nat) (s : string) : string :=
  match n, s with
  | O, _ => s
  | S n', String _ s' => str_drop n' s'
  | S _, EmptyString => EmptyString
  end.

(** [re.sub(pattern, replacer, contents)] for the pattern of
    [update_path]: [export PATH=], an optional double quote, the group of
    characters other than a double quote and a newline, an optional
    double quote.  Scanning from the left: where [path_marker] starts, the pattern matches (its
    other parts may match the empty string and are greedy), the match is
    replaced and the scan resumes after it; elsewhere one character is
    kept.  Each step consumes at least one character, so [fuel] equal to
    the length of the text is enough. *)
Fixpoint sub_path (fuel : nat) (components : list string) (s : string) : string :=
  match fuel with
  | O => s
  | S fuel' =>
      match s with
      | EmptyString => EmptyString
      | String c s' =>
          if String.prefix path_marker s then
            let '(value, after) :=
              take_value (skip_quote (str_drop (String.length path_marker) s)) in
            replacer components value ++ sub_path fuel' components (skip_quote after)
          else String c (sub_path fuel' components s')
      end
  end.

(** [update_path( *components)]: [None] when [read_text()] raises
    [FileNotFoundError]; [modifies_environment] reloads the environment
    after the write. *)
Definition update_path (zshrc : zshrc_file) (components : list string) : option string :=
  match zshrc with
  | None => None
  | Some raw =>
      let contents := universal_newlines raw in
      Some (sub_path (String.length contents) components contents)
  end.

(** The lines [install_zinit_plugins(loader, *plugins, ices=ices)] appends. *)
Definition zinit_plugin_strings (loader : string) (plugins ices : list string) : list string :=
  let ice_string :=
    match ices with
    | [] => ""
    | _ => "zinit ice " ++ String.concat " " ices ++ newline
    end in
  map (fun p => ice_string ++ "zinit " ++ loader ++ " " ++ p) plugins.

Definition install_zinit_plugins (zshrc : zshrc_file) (loader : string)
    (plugins ices : list string) : zshrc_file :=
  append_to_zshrc zshrc (zinit_plugin_strings loader plugins ices).

(* ================================================================== *)
(** ** [detect_changed_files] and the ROOT version string              *)
(* ================================================================== *)

(** [with detect_changed_files(directory) as changed_files: body]: the
    listing before the body is [before_files], after it [after_files].
    The yielded set is filled only after a body that returned; when the
    body raises, the exception leaves the generator at its [yield]. *)
Definition detect_changed_files {A} (before_files : gset string) (body : res A)
    (after_files : gset string) : res A * gset string :=
  match body with
  | Ok a => (Ok a, ∅ ∪ (after_files ∖ before_files))
  | Err e => (Err e, ∅)
  end.

(** [(deb_path,) = changed_files] in [install_pandoc]. *)
Definition single_changed_file (changed_files : gset string) : res string :=
  match elements changed_files with
  | [x] => Ok x
  | [] => Err (ValueError "not enough values to unpack (expected 1, got 0)")
  | _ => Err (ValueError "too many values to unpack (expected 1)")
  end.

(** [s.replace(old, new)] for a one-character [old]. *)
Fixpoint replace_char (old : ascii) (new s : string) : string :=
  match s with
  | EmptyString => EmptyString
  | String c s' =>
      if Ascii.eqb c old then new ++ replace_char old new s'
      else String c (replace_char old new s')
  end.

(** [tag.name.replace('v', '').replace('-', '.')] in
    [install_root_from_source]. *)
Definition root_version (tag_name : string) : string :=
  replace_char "-" "." (replace_char "v" "" tag_name).

(** No character of [s] is [c]. *)
Definition lacks (c : ascii) (s : string) : bool :=
  negb (existsb (Ascii.eqb c) (list_ascii_of_string s)).

(** All characters of [s] are whitespace. *)
Definition all_space (s : string) : bool := forallb is_py_space (list_ascii_of_string s).

(** No character of [s] is whitespace. *)
Definition no_space (s : string) : bool :=
  forallb (fun c => negb (is_py_space c)) (list_ascii_of_string s).

(* ================================================================== *)
(** ** General lemmas                                                  *)
(* ================================================================== *)

Lemma string_append_assoc (a b c : string) : (a ++ b) ++ c = a ++ (b ++ c).
Proof.
  induction a as [|x a IH]; [reflexivity|].
  change (String x ((a ++ b) ++ c) = String x (a ++ b ++ c)). now rewrite IH.
Qed.

Lemma string_append_nil_r (a : string) : a ++ "" = a.
Proof.
  induction a as [|x a IH]; [reflexivity|].
  change (String x (a ++ "") = String x a). now rewrite IH.
Qed.



Lemma lookup_then_spec {A} (k : string) (f : json -> A) (m : A) fs :
  lookup_then k f m fs = match assoc_lookup k fs with Some v => f v | None => m end.
Proof.
  induction fs as [|[k' v] fs IH]; simpl; [reflexivity|].
  destruct (String.eqb k k'); [reflexivity | exact IH].
Qed.

Lemma assoc_lookup_app_miss {A} (k : string) (fs gs : list (string * A)) :
  assoc_lookup k fs = None -> assoc_lookup k (app fs gs) = assoc_lookup k gs.
Proof.
  induction fs as [|[k' v] fs IH]; simpl; [easy|].
  destruct (String.eqb k k'); [discriminate | exact IH].
Qed.

Lemma follow_targets_chain levels inner :
  Forall (fun fs => assoc_lookup "target" fs = None) levels ->
  assoc_lookup "target" inner = None ->
  follow_targets (target_chain levels inner) = Ok (JObj inner).
Proof.
  intros Hl Hi. induction Hl as [|fs ls Hfs Hls IH]; simpl.
  - now rewrite lookup_then_spec, Hi.
  - rewrite lookup_then_spec, (assoc_lookup_app_miss _ _ _ Hfs). simpl. exact IH.
Qed.

(* ================================================================== *)
(** ** Claims                                                          *)
(* ================================================================== *)

(** C2: the resolution of a tag to its commit follows every ["target"]
    level present: a lightweight tag (node target is the commit) yields
    the commit's [tarballUrl]; an annotated tag (node target is a tag
    object whose target is the commit) yields the commit's [tarballUrl],
    not a field of the tag object; and for any number of levels the loop
    stops at the first object without a ["target"] key. *)
Theorem tag_resolution_follows_all_targets :
  (forall (n u : json),
     tag_from_result (result_with_node
       (JObj [("name", n);
              ("target", JObj [("__typename", JStr "Commit"); ("tarballUrl", u)])]))
     = Ok (mkGitTag n u)) /\
  (forall (n tn u : json),
     tag_from_result (result_with_node
       (JObj [("name", n);
              ("target", JObj [("__typename", JStr "Tag"); ("name", tn);
                               ("target", JObj [("tarballUrl", u)])])]))
     = Ok (mkGitTag n u)) /\
  (forall levels inner,
     Forall (fun fs => assoc_lookup "target" fs = None) levels ->
     assoc_lookup "target" inner = None ->
     follow_targets (target_chain levels inner) = Ok (JObj inner) /\
     bind (follow_targets (target_chain levels inner)) (fun obj => py_getitem obj "tarballUrl")
       = match assoc_lookup "tarballUrl" inner with
         | Some u => Ok u
         | None => Err (KeyError "tarballUrl")
         end).
Proof.
  split; [|split].
  - intros n u. reflexivity.
  - intros n tn u. reflexivity.
  - intros levels inner Hl Hi.
    rewrite (follow_targets_chain _ _ Hl Hi). split; reflexivity.
Qed.

Lemma tag_resolution_follows_all_targets_witness :
  follow_targets (target_chain [[("__typename", JStr "Tag"); ("tarballUrl", JStr "tag-url")];
                                [("__typename", JStr "Tag")]]
                               [("tarballUrl", JStr "commit-url")])
  = Ok (JObj [("tarballUrl", JStr "commit-url")]).
Proof.
  apply (proj1 (proj2 (proj2 tag_resolution_follows_all_targets)
           [[("__typename", JStr "Tag"); ("tarballUrl", JStr "tag-url")];
            [("__typename", JStr "Tag")]]
           [("tarballUrl", JStr "commit-url")]
           ltac:(repeat constructor) ltac:(reflexivity))).
Defined.

Lemma not_token_invalid_bind {A B} (m : res A) (f : A -> res B) :
  not_token_invalid m -> (forall a, not_token_invalid (f a)) ->
  not_token_invalid (bind m f).
Proof.
  destruct m as [a|e]; simpl; intros H1 H2; [apply H2|].
  intros m' H. injection H as ->. exact (H1 m' eq_refl).
Qed.

Lemma not_token_invalid_mapM {A B} (f : A -> res B) l :
  (forall a, not_token_invalid (f a)) -> not_token_invalid (mapM f l).
Proof.
  intros Hf. induction l as [|x l IH]; simpl.
  - intros m H; discriminate.
  - apply not_token_invalid_bind; [apply Hf|]. intros y.
    apply not_token_invalid_bind; [exact IH|]. intros ys m H; discriminate.
Qed.

Lemma not_token_invalid_getitem j k : not_token_invalid (py_getitem j k).
Proof. destruct j; simpl; try (intros m H; discriminate). destruct (assoc_lookup k fields); intros m H; discriminate. Qed.

Lemma not_token_invalid_iter j : not_token_invalid (py_iter j).
Proof. destruct j; simpl; intros m H; discriminate. Qed.

Lemma not_token_invalid_errors_to_string e : not_token_invalid (graphql_errors_to_string e).
Proof.
  unfold graphql_errors_to_string.
  apply not_token_invalid_bind; [apply not_token_invalid_iter|]. intros es.
  apply not_token_invalid_bind; [|intros msgs m H; discriminate].
  apply not_token_invalid_mapM. intros err. unfold graphql_error_line.
  apply not_token_invalid_bind; [apply not_token_invalid_getitem|]. intros locs.
  apply not_token_invalid_bind; [apply not_token_invalid_iter|]. intros ps.
  apply not_token_invalid_bind.
  - apply not_token_invalid_mapM. intros p. unfold location_to_string.
    apply not_token_invalid_bind; [apply not_token_invalid_getitem|]. intros l.
    apply not_token_invalid_bind; [apply not_token_invalid_getitem|]. intros c m H; discriminate.
  - intros locations.
    apply not_token_invalid_bind; [apply not_token_invalid_getitem|]. intros msg m H; discriminate.
Qed.

Lemma not_token_invalid_response token result :
  not_token_invalid (execute_github_graphql_query token (HttpOk (Some result))).
Proof.
  simpl. apply not_token_invalid_bind.
  - destruct result; simpl; intros m' H; discriminate.
  - intros [|].
    + apply not_token_invalid_bind; [apply not_token_invalid_getitem|]. intros errs.
      apply not_token_invalid_bind; [apply not_token_invalid_errors_to_string|].
      intros msg m' H; discriminate.
    + intros m' H; discriminate.
Qed.

(** C5: [execute_github_graphql_query] raises [TokenInvalidError] exactly
    when the request fails with HTTP status 401; every other HTTP error
    code is re-raised as the same [HTTPError]. *)
Theorem token_invalid_iff_http_401 (token : string) :
  (forall o : http_outcome,
     (exists m, execute_github_graphql_query token o = Err (TokenInvalidError m))
     <-> o = HttpErr 401%Z) /\
  (forall code : Z, (code <> 401)%Z ->
     execute_github_graphql_query token (HttpErr code) = Err (HTTPError code)).
Proof.
  split.
  - intros o. split.
    + intros [m Hm]. destruct o as [[result|]|code|r]; simpl in Hm.
      * exfalso. exact (not_token_invalid_response token result m Hm).
      * discriminate.
      * destruct (Z.eqb_spec code 401) as [->|]; [reflexivity | discriminate].
      * discriminate.
    + intros ->. eexists. reflexivity.
  - intros code Hc. simpl. apply Z.eqb_neq in Hc. now rewrite Hc.
Qed.

Lemma token_invalid_iff_http_401_witness :
  execute_github_graphql_query "tok" (HttpErr 403%Z) = Err (HTTPError 403%Z).
Proof. apply (proj2 (token_invalid_iff_http_401 "tok") 403%Z). lia. Defined.

(** C10: the [context()] guard decrements [_depth] only when its body
    returns; when the body raises, the exception propagates and [_depth]
    keeps the increment.  Hence an [installer]-wrapped function that
    leaves [_depth] as it found it and raises leaves [_depth] one higher
    than before the call, while one that returns restores it. *)
Theorem context_depth_not_restored_on_exception {A : Type} :
  (forall (body : lstate -> res A * lstate) (st : lstate),
     match body (mkLstate ((depth st + 1)%Z) (log_lines st)), context body st with
     | (Ok v, st2), (r, st') => r = Ok v /\ depth st' = (depth st2 - 1)%Z
     | (Err e, st2), (r, st') => r = Err e /\ depth st' = depth st2
     end) /\
  (forall (func_string : string) (func : lstate -> res A * lstate) (st : lstate),
     let st_in := mkLstate ((depth st + 1)%Z) (log_lines (log ("Running " ++ func_string) st)) in
     depth (snd (func st_in)) = (depth st + 1)%Z ->
     match fst (func st_in), installer func_string func st with
     | Ok v, (r, st') => r = Ok v /\ depth st' = depth st
     | Err e, (r, st') => r = Err e /\ depth st' = (depth st + 1)%Z
     end).
Proof.
  split.
  - intros body st. unfold context.
    destruct (body _) as [[v|e] st2]; split; reflexivity.
  - intros func_string func st. simpl. intros Hd.
    unfold installer, context. simpl log_lines. simpl depth.
    destruct (func _) as [[v|e] st2]; simpl in Hd |- *; split; try reflexivity.
    + rewrite Hd. lia.
    + exact Hd.
Qed.

Lemma context_depth_not_restored_on_exception_witness :
  installer "install_x()" (fun s => (Err (UserError "failed") : res unit, s)) (mkLstate 0%Z [])
  = (Err (UserError "failed"),
     mkLstate 1%Z ["Running install_x()"; "   Execution of install_x() failed"]).
Proof.
  pose proof (proj2 (@context_depth_not_restored_on_exception unit) "install_x()"
                (fun s => (Err (UserError "failed"), s)) (mkLstate 0%Z []) eq_refl) as H.
  simpl in H. reflexivity.
Defined.

(** C7: [get_user_input] with a default and no converter returns the
    default on an empty line and a non-empty line verbatim (e.g. default
    ["sci"]); without a default an empty line is refused and the prompt
    repeats; with a converter, a non-empty line is passed to it, its
    result returned, and a [ValueError] from it makes the prompt repeat
    instead of propagating (any other exception propagates). *)
Theorem get_user_input_prompt_loop :
  (forall prompt d line rest out,
     get_user_input prompt (Some d) None (line :: rest) out =
     (Ok (if String.eqb line "" then d else VStr line),
      (rest, app out [prompt_text prompt (Some d)]))) /\
  (forall conv rest out,
     get_user_input "Enter name" (Some (VStr "sci")) conv ("" :: rest) out =
     get_user_input "Enter name" (Some (VStr "sci")) conv ("sci" :: rest) out) /\
  (forall prompt conv rest out,
     get_user_input prompt None conv ("" :: rest) out =
     get_user_input prompt None conv rest
       (app (app out [prompt ++ ": "]) ["A value is required! Try again."])) /\
  (forall prompt default c line rest out,
     line <> "" ->
     let out1 := app out [prompt_text prompt default] in
     match c (VStr line) with
     | Ok v => get_user_input prompt default (Some c) (line :: rest) out = (Ok v, (rest, out1))
     | Err e =>
         if is_value_error e
         then get_user_input prompt default (Some c) (line :: rest) out =
              get_user_input prompt default (Some c) rest
                (app out1 ["Invalid value " ++ pyval_repr (VStr line) ++ "! Try again."])
         else get_user_input prompt default (Some c) (line :: rest) out = (Err e, (rest, out1))
     end).
Proof.
  split; [|split; [|split]].
  - intros prompt d line rest out. simpl. destruct (String.eqb line ""); reflexivity.
  - intros conv rest out. reflexivity.
  - intros prompt conv rest out. reflexivity.
  - intros prompt default c line rest out Hline out1.
    apply String.eqb_neq in Hline.
    destruct default as [d|]; simpl; rewrite ?Hline;
      destruct (c (VStr line)) as [v|e]; try reflexivity;
      destruct (is_value_error e); reflexivity.
Qed.

Lemma get_user_input_prompt_loop_witness :
  get_user_input "Enter number of build threads" None (Some only_three) ["x"; "3"] []
  = (Ok (VInt 3), ([], ["Enter number of build threads: "; "Invalid value 'x'! Try again.";
                        "Enter number of build threads: "])).
Proof.
  pose proof (proj2 (proj2 (proj2 get_user_input_prompt_loop))
                "Enter number of build threads" None only_three "x" ["3"] []
                ltac:(discriminate)) as H.
  simpl in H. vm_compute in H. vm_compute. exact H.
Defined.

(** C8 does not hold for every key: ["set"] was never stored in the
    config, yet reading it returns the bound method [Config.set] (the
    same holds for [__class__], [__doc__], [__init__], ...). *)
Lemma config_get_class_attribute_not_unknown :
  cdict (empty_config []) !! "set" = None /\
  fst (config_get (fun _ => PRet VNone) 1 "set" (empty_config [])) = Ok (VBuiltin "set").
Proof. split; reflexivity. Qed.

(** C8 (amended): reading a key that is neither in the instance dict nor
    an attribute of the class [Config] or of [object] raises
    [AttributeError] and changes nothing but the record of the read;
    reading a key not in the instance dict that names an attribute of the
    class or of [object], or a key that names one of their data
    descriptors, returns that attribute instead. *)
Theorem config_get_unknown_raises (producers : nat -> prog) (n : nat) (k : string)
    (st : cstate) :
  (cdict st !! k = None ->
   mem k data_descriptors = false ->
   mem k class_attributes = false ->
   config_get producers (S n) k st = (Err (AttributeError k), log_event (EvGet k) st)) /\
  (cdict st !! k = None ->
   mem k class_attributes = true ->
   config_get producers (S n) k st = (Ok (VBuiltin k), log_event (EvGet k) st)) /\
  (mem k data_descriptors = true ->
   config_get producers (S n) k st = (Ok (VBuiltin k), log_event (EvGet k) st)).
Proof.
  split; [|split].
  - intros Hd Hdd Hca. simpl. unfold object_getattribute.
    rewrite Hdd, Hd, Hca. reflexivity.
  - intros Hd Hca. simpl. unfold object_getattribute.
    destruct (mem k data_descriptors); [reflexivity|]. rewrite Hd, Hca. reflexivity.
  - intros Hdd. simpl. unfold object_getattribute. rewrite Hdd. reflexivity.
Qed.

Lemma config_get_unknown_raises_witness :
  config_get (fun _ => PRet VNone) 1 "unknown" (empty_config [])
  = (Err (AttributeError "unknown"), log_event (EvGet "unknown") (empty_config [])) /\
  config_get (fun _ => PRet VNone) 1 "__doc__" (empty_config [])
  = (Ok (VBuiltin "__doc__"), log_event (EvGet "__doc__") (empty_config [])) /\
  config_get (fun _ => PRet VNone) 1 "__class__" (empty_config [])
  = (Ok (VBuiltin "__class__"), log_event (EvGet "__class__") (empty_config [])).
Proof.
  split; [|split].
  - apply (proj1 (config_get_unknown_raises (fun _ => PRet VNone) 0 "unknown" (empty_config [])));
      reflexivity.
  - apply (proj1 (proj2 (config_get_unknown_raises (fun _ => PRet VNone) 0 "__doc__"
             (empty_config [])))); reflexivity.
  - apply (proj2 (proj2 (config_get_unknown_raises (fun _ => PRet VNone) 0 "__class__"
             (empty_config [])))); reflexivity.
Defined.
















Lemma extends_trans st1 st2 st3 t1 t2 :
  extends st1 st2 t1 -> extends st2 st3 t2 -> extends st1 st3 (app t1 t2).
Proof.
  intros [T1 D1] [T2 D2]. split.
  - rewrite T2, T1. symmetry. apply app_assoc.
  - intros b Hb. rewrite D2, D1; [reflexivity| |];
      intros Hin; apply Hb; apply in_or_app; auto.
Qed.

Lemma extends_log st e : extends st (log_event e st) [e].
Proof.
  split; [reflexivity|]. intros b Hb. reflexivity.
Qed.

Lemma extends_refl st st' :
  trace st' = trace st -> cdict st' = cdict st -> extends st st' [].
Proof. intros T D. split; [rewrite T, app_nil_r; reflexivity | now rewrite D]. Qed.

Lemma object_setattr_plain d k v :
  mem k data_descriptors = false -> object_setattr d k v = Ok (<[k := v]> d).
Proof.
  unfold mem, data_descriptors. simpl. rewrite !orb_false_iff.
  intros (H1 & H2 & H3 & _). unfold object_setattr. now rewrite H1, H2, H3.
Qed.

Lemma object_setattr_inv d k v d' :
  object_setattr d k v = Ok d' -> d' = <[k := v]> d.
Proof.
  unfold object_setattr.
  destruct (String.eqb k "__class__"); [discriminate|].
  destruct (String.eqb k "__dict__"); [discriminate|].
  destruct (String.eqb k "__weakref__"); [discriminate|].
  now intros [= <-].
Qed.

Lemma run_prog_extends (getf : string -> cstate -> res pyval * cstate) :
  (forall k st r st', getf k st = (r, st') -> exists tr, extends st st' tr) ->
  forall p st r st', run_prog getf p st = (r, st') -> exists tr, extends st st' tr.
Proof.
  intros Hg p. induction p as [v|e|k kont IH|prompt kont IH]; intros st r st' Hrun; simpl in Hrun.
  - injection Hrun as _ <-. exists []. now apply extends_refl.
  - injection Hrun as _ <-. exists []. now apply extends_refl.
  - destruct (getf k st) as [r1 st1] eqn:Hk.
    destruct (Hg _ _ _ _ Hk) as [t1 E1].
    destruct (IH _ _ _ _ Hrun) as [t2 E2].
    exists (app t1 t2). eapply extends_trans; eassumption.
  - destruct (cin st) as [|l rest].
    + destruct (IH _ _ _ _ Hrun) as [t E]. exists t.
      eapply (extends_trans _ _ _ [] t) in E; [exact E|]. now apply extends_refl.
    + destruct (IH _ _ _ _ Hrun) as [t E]. exists t.
      eapply (extends_trans _ _ _ [] t) in E; [exact E|]. now apply extends_refl.
Qed.

Lemma config_get_extends (producers : nat -> prog) n :
  forall k st r st', config_get producers n k st = (r, st') -> exists tr, extends st st' tr.
Proof.
  induction n as [|n IH]; intros k st r st' Hget; simpl in Hget.
  - injection Hget as _ <-. exists [EvGet k]. apply extends_log.
  - destruct (object_getattribute (cdict st) k) as [v|e].
    2:{ injection Hget as _ <-. exists [EvGet k]. apply extends_log. }
    destruct v as [| | | |p|];
      try (injection Hget as _ <-; exists [EvGet k]; apply extends_log).
    destruct (run_prog (config_get producers n) (producers p)
                (log_event (EvInvoke p) (log_event (EvGet k) st))) as [[v|e] st2] eqn:Hrun;
      destruct (run_prog_extends _ IH _ _ _ _ Hrun) as [t E].
    + destruct (object_setattr (cdict st2) k v) as [d|e] eqn:Hset.
      * injection Hget as _ <-. apply object_setattr_inv in Hset as ->.
        exists (app [EvGet k; EvInvoke p] t).
        assert (E0 : extends st (log_event (EvInvoke p) (log_event (EvGet k) st))
                       [EvGet k; EvInvoke p]).
        { exact (extends_trans _ _ _ [EvGet k] [EvInvoke p] (extends_log _ _) (extends_log _ _)). }
        pose proof (extends_trans _ _ _ _ _ E0 E) as [T D]. split; [exact T|].
        intros b Hb. simpl. rewrite lookup_insert_ne.
        { apply D, Hb. }
        intros ->. apply Hb. left. reflexivity.
      * injection Hget as _ <-. exists (app [EvGet k; EvInvoke p] t).
        exact (extends_trans _ _ _ _ _
                 (extends_trans _ _ _ [EvGet k] [EvInvoke p] (extends_log _ _) (extends_log _ _)) E).
    + injection Hget as _ <-. exists (app [EvGet k; EvInvoke p] t).
      exact (extends_trans _ _ _ _ _
               (extends_trans _ _ _ [EvGet k] [EvInvoke p] (extends_log _ _) (extends_log _ _)) E).
Qed.

Lemma count_invocations_app p t1 t2 :
  count_invocations p (app t1 t2) = (count_invocations p t1 + count_invocations p t2)%nat.
Proof. unfold count_invocations. now rewrite List.filter_app, List.length_app. Qed.

Lemma count_invocations_absent p tr :
  ~ In (EvInvoke p) tr -> count_invocations p tr = 0%nat.
Proof.
  induction tr as [|e tr IH]; intros Hn; [reflexivity|].
  unfold count_invocations in *. simpl.
  destruct e as [k|q].
  - apply IH. intros H. apply Hn. right. exact H.
  - destruct (Nat.eqb_spec p q) as [->|].
    + exfalso. apply Hn. left. reflexivity.
    + apply IH. intros H. apply Hn. right. exact H.
Qed.

(** The trace of the producer run started by reading a pending key. *)
Lemma producer_run_trace (producers : nat -> prog) n b p st r st2 :
  run_prog (config_get producers n) (producers p)
    (log_event (EvInvoke p) (log_event (EvGet b) st)) = (r, st2) ->
  exists tr, trace st2 = app (trace st) (EvGet b :: EvInvoke p :: tr) /\
             drop (S (S (List.length (trace st)))) (trace st2) = tr /\
             (~ In (EvGet b) tr -> cdict st2 !! b = cdict st !! b).
Proof.
  intros Hrun.
  destruct (run_prog_extends _ (config_get_extends producers n) _ _ _ _ Hrun) as [tr [T D]].
  exists tr. simpl in T. rewrite <- !app_assoc in T. simpl in T.
  split; [exact T|]. split.
  - rewrite T. replace (S (S (List.length (trace st))))
      with (List.length (app (trace st) [EvGet b; EvInvoke p])).
    + change (EvGet b :: EvInvoke p :: tr) with (app [EvGet b; EvInvoke p] tr).
      rewrite app_assoc. apply drop_app_length.
    + rewrite List.length_app. simpl. lia.
  - intros Hb. rewrite (D b Hb). reflexivity.
Qed.

(** C3 does not hold for every producer: a producer whose result is
    itself a [DeferredValueFactory] (here the factory returns itself) is
    stored as such, so the next read calls it again. *)
Lemma deferred_result_invoked_again :
  let prods := fun _ : nat => PRet (VDeferred 0) in
  let st := mkCstate {[ "b" := VDeferred 0 ]} [] [] [] in
  let '(_, st1) := config_get prods 100 "b" st in
  let '(_, st2) := config_get prods 100 "b" st1 in
  count_invocations 0 (trace st2) = 2%nat.
Proof. vm_compute. reflexivity. Qed.

(** C3 (amended): let key [b] hold the factory [p].  If the run of [p]
    started by the first read returns [v], neither reads [b] nor calls [p]
    again (no cyclic dependency), and [v] is not itself a deferred value,
    then the first read calls [p] once and stores [v], the second read
    returns the same [v] without calling [p], and over both reads [p] is
    called exactly once. *)
Theorem deferred_get_memoizes (producers : nat -> prog) (n : nat) (b : string) (p : nat)
    (st : cstate) (v : pyval) (st2 : cstate) :
  cdict st !! b = Some (VDeferred p) ->
  mem b data_descriptors = false ->
  run_prog (config_get producers n) (producers p)
    (log_event (EvInvoke p) (log_event (EvGet b) st)) = (Ok v, st2) ->
  ~ In (EvGet b) (drop (S (S (List.length (trace st)))) (trace st2)) ->
  ~ In (EvInvoke p) (drop (S (S (List.length (trace st)))) (trace st2)) ->
  is_deferred v = false ->
  let st1 := set_dict (<[b := v]> (cdict st2)) st2 in
  config_get producers (S n) b st = (Ok v, st1) /\
  config_get producers (S n) b st1 = (Ok v, log_event (EvGet b) st1) /\
  count_invocations p (trace (log_event (EvGet b) st1))
  = S (count_invocations p (trace st)).
Proof.
  intros Hb Hdd Hrun Hnb Hnp Hv st1.
  destruct (producer_run_trace _ _ _ _ _ _ _ Hrun) as (tr & T & Dr & _).
  rewrite Dr in Hnb, Hnp.
  split; [|split].
  - simpl. unfold object_getattribute. rewrite Hdd. simpl cdict. rewrite Hb, Hrun.
    rewrite object_setattr_plain by exact Hdd. reflexivity.
  - simpl. unfold object_getattribute. rewrite Hdd. simpl cdict. rewrite lookup_insert_eq.
    destruct v; try reflexivity. discriminate Hv.
  - simpl trace. rewrite T, <- app_assoc, !count_invocations_app.
    change (EvGet b :: EvInvoke p :: tr) with (app [EvGet b; EvInvoke p] tr).
    rewrite count_invocations_app, (count_invocations_absent p tr Hnp).
    unfold count_invocations at 2 3. simpl. rewrite Nat.eqb_refl. simpl. lia.
Qed.

Lemma deferred_get_memoizes_witness :
  fst (config_get succ_of_a 5 "b" config_ab) = Ok (VInt 2) /\
  count_invocations 7 (trace (snd (config_get succ_of_a 5 "b"
                                    (snd (config_get succ_of_a 5 "b" config_ab))))) = 1%nat.
Proof.
  destruct (deferred_get_memoizes succ_of_a 4 "b" 7 config_ab (VInt 2)
              (set_dict (cdict config_ab)
                 (mkCstate (cdict config_ab) [EvGet "b"; EvInvoke 7; EvGet "a"] [] []))
              ltac:(reflexivity) ltac:(reflexivity) ltac:(vm_compute; reflexivity)
              ltac:(vm_compute; intros [H|H]; [discriminate|exact H])
              ltac:(vm_compute; intros [H|H]; [discriminate|exact H])
              ltac:(reflexivity)) as (H1 & H2 & H3).
  rewrite H1. cbn [snd fst]. rewrite H2. split; [reflexivity|exact H3].
Defined.

(** C4: if the producer of a pending key raises (and does not read that
    key itself), the read raises the same exception, the key still holds
    the factory, and the next read of the key calls the producer again. *)
Theorem deferred_get_failure_keeps_pending (producers : nat -> prog) (n : nat) (b : string)
    (p : nat) (st : cstate) (e : exn) (st2 : cstate) :
  cdict st !! b = Some (VDeferred p) ->
  mem b data_descriptors = false ->
  run_prog (config_get producers n) (producers p)
    (log_event (EvInvoke p) (log_event (EvGet b) st)) = (Err e, st2) ->
  ~ In (EvGet b) (drop (S (S (List.length (trace st)))) (trace st2)) ->
  config_get producers (S n) b st = (Err e, st2) /\
  cdict st2 !! b = Some (VDeferred p) /\
  (forall m, exists tr,
     trace (snd (config_get producers (S m) b st2))
     = app (trace st2) (EvGet b :: EvInvoke p :: tr)).
Proof.
  intros Hb Hdd Hrun Hnb.
  destruct (producer_run_trace _ _ _ _ _ _ _ Hrun) as (tr & T & Dr & D).
  rewrite Dr in Hnb.
  assert (Hb2 : cdict st2 !! b = Some (VDeferred p)) by (rewrite D; assumption).
  split; [|split; [exact Hb2|]].
  - simpl. unfold object_getattribute. rewrite Hdd. simpl cdict. rewrite Hb, Hrun. reflexivity.
  - intros m. simpl. unfold object_getattribute. rewrite Hdd. simpl cdict. rewrite Hb2.
    destruct (run_prog (config_get producers m) (producers p)
                (log_event (EvInvoke p) (log_event (EvGet b) st2))) as [r st4] eqn:Hrun2.
    destruct (producer_run_trace _ _ _ _ _ _ _ Hrun2) as (tr2 & T2 & _).
    exists tr2. destruct r as [v|e'].
    + destruct (object_setattr (cdict st4) b v); exact T2.
    + exact T2.
Qed.

Lemma deferred_get_failure_keeps_pending_witness :
  config_get always_fails 5 "b" config_ab
  = (Err (UserError "producer failed"),
     mkCstate (cdict config_ab) [EvGet "b"; EvInvoke 7] [] []).
Proof.
  apply (proj1 (deferred_get_failure_keeps_pending always_fails 4 "b" 7 config_ab
           (UserError "producer failed") (mkCstate (cdict config_ab) [EvGet "b"; EvInvoke 7] [] [])
           ltac:(reflexivity) ltac:(reflexivity) ltac:(reflexivity)
           ltac:(vm_compute; intros []))).
Defined.

Lemma string_leb_trans (s1 s2 s3 : string) :
  String.leb s1 s2 = true -> String.leb s2 s3 = true -> String.leb s1 s3 = true.
Proof.
  revert s2 s3. unfold String.leb.
  induction s1 as [|a s1 IH]; intros [|b s2] [|c s3]; simpl; try easy.
  unfold Ascii.compare.
  destruct (N.compare_spec (N_of_ascii a) (N_of_ascii b)) as [Hab|Hab|Hab];
  destruct (N.compare_spec (N_of_ascii b) (N_of_ascii c)) as [Hbc|Hbc|Hbc]; try easy.
  - rewrite Hab, Hbc, N.compare_refl. apply IH.
  - replace (N.compare (N_of_ascii a) (N_of_ascii c)) with Lt; [easy|].
    symmetry. apply N.compare_lt_iff. lia.
  - replace (N.compare (N_of_ascii a) (N_of_ascii c)) with Lt; [easy|].
    symmetry. apply N.compare_lt_iff. lia.
  - replace (N.compare (N_of_ascii a) (N_of_ascii c)) with Lt; [easy|].
    symmetry. apply N.compare_lt_iff. lia.
Qed.

Lemma string_leb_flip (s1 s2 : string) :
  String.leb s1 s2 = false -> String.leb s2 s1 = true.
Proof. intros H. destruct (String.leb_total s1 s2) as [H'|H']; congruence. Qed.

Section SortHead.

Variable q : refs_query.
Hypothesis before_trans :
  forall a b c, before q a b = true -> before q b c = true -> before q a c = true.
Hypothesis before_total :
  forall a b, before q a b = false -> before q b a = true.

Lemma before_refl a : before q a a = true.
Proof. destruct (before q a a) eqn:H; [reflexivity|]. rewrite <- H. now apply before_total. Qed.

(** The first reference of the sorted connection comes no later than any
    other reference. *)
Lemma sort_by_head (l : list tag_ref) :
  l <> [] ->
  exists h t, sort_by q l = h :: t /\ In h l /\ forall y, In y l -> before q h y = true.
Proof.
  induction l as [|x l IH]; [easy|]. intros _.
  destruct l as [|x' l].
  - exists x, []. split; [reflexivity|]. split; [left; reflexivity|].
    intros y [<-|[]]. apply before_refl.
  - destruct (IH ltac:(discriminate)) as (h & t & Hs & Hin & Hmin).
    change (sort_by q (x :: x' :: l)) with (insert_by q x (sort_by q (x' :: l))).
    rewrite Hs. simpl insert_by. destruct (before q x h) eqn:Hxh.
    + exists x, (h :: t). split; [reflexivity|]. split; [left; reflexivity|].
      intros y [<-|Hy]; [apply before_refl|]. eapply before_trans; [exact Hxh|]. now apply Hmin.
    + exists h, (insert_by q x t). split; [reflexivity|]. split; [right; exact Hin|].
      intros y [<-|Hy]; [now apply before_total|]. now apply Hmin.
Qed.

End SortHead.

(** C1 fails on this input: the query orders the tags [ALPHABETICAL], so
    of ["v10"] (created last) and ["v9"] it returns ["v9"], where the
    docstring's "latest Tag" is the most recently created ["v10"]. *)
Lemma latest_tag_not_most_recent :
  let refs := [mkTagRef "v10" 1700000000 (Commit "c10" "https://api.github.com/repos/o/r/tarball/v10");
               mkTagRef "v9" 1600000000 (Commit "c9" "https://api.github.com/repos/o/r/tarball/v9")] in
  find_latest_github_tag "tok" (github_refs_response find_latest_github_tag_query refs)
  = Ok (mkGitTag (JStr "v9") (JStr "https://api.github.com/repos/o/r/tarball/v9")) /\
  ref_name (most_recent (hd (mkTagRef "" 0 (Blob "")) refs) (tl refs)) = "v10".
Proof. split; reflexivity. Qed.

(** C1 (what the code computes): for a repository with at least one tag
    reference, the resolver returns the tag whose name is greatest in GitHub's
    alphabetical order (the query sorts [ALPHABETICAL], [DESC], [first: 1]),
    with the [tarballUrl] the service reports for the commit it points at,
    directly or through one annotated tag; any other target makes the
    final lookup fail with [KeyError]. *)
Theorem latest_tag_is_alphabetically_greatest (token : string) (refs : list tag_ref) :
  refs <> [] ->
  exists r, In r refs /\
    (forall r', In r' refs -> String.leb (ref_name r') (ref_name r) = true) /\
    find_latest_github_tag token (github_refs_response find_latest_github_tag_query refs)
    = match query_tarball (ref_target r) with
      | Some u => Ok (mkGitTag (JStr (ref_name r)) (JStr u))
      | None => Err (KeyError "tarballUrl")
      end.
Proof.
  intros Hne.
  destruct (sort_by_head find_latest_github_tag_query
              (fun a b c Hab Hbc => string_leb_trans _ _ _ Hbc Hab)
              (fun a b H => string_leb_flip _ _ H) refs Hne) as (h & t & Hs & Hin & Hmax).
  exists h. split; [exact Hin|]. split; [exact Hmax|].
  unfold github_refs_response. rewrite Hs. simpl take. unfold edge_json.
  destruct (ref_target h) as [oid url|tn o|oid|oid] eqn:Ht; [| destruct o | |];
    simpl; rewrite ?Ht; reflexivity.
Qed.

Lemma latest_tag_is_alphabetically_greatest_witness :
  find_latest_github_tag "tok"
    (github_refs_response find_latest_github_tag_query
       [mkTagRef "v1.0" 1 (Commit "c1" "u1"); mkTagRef "v2.0" 2 (Tag "v2.0" (Commit "c2" "u2"))])
  = Ok (mkGitTag (JStr "v2.0") (JStr "u2")).
Proof.
  destruct (latest_tag_is_alphabetically_greatest "tok"
              [mkTagRef "v1.0" 1 (Commit "c1" "u1"); mkTagRef "v2.0" 2 (Tag "v2.0" (Commit "c2" "u2"))]
              ltac:(discriminate)) as (r & Hin & Hmax & H).
  rewrite H. simpl in Hin.
  destruct Hin as [<-|[<-|[]]]; [|reflexivity].
  specialize (Hmax _ (or_intror (or_introl eq_refl))). discriminate Hmax.
Defined.

(* ================================================================== *)
(** ** Further properties: prompts, [.zshrc] editing, installers       *)
(* ================================================================== *)


Lemma parse_digits_acc (d : Decimal.uint) (acc : positive) :
  parse_digits (NilEmpty.string_of_uint d) (Zpos acc) true = Some (Zpos (Pos.of_uint_acc d acc)).
Proof.
  revert acc. induction d; intros acc; simpl; [reflexivity| ..];
    rewrite <- IHd; f_equal; lia.
Qed.

Lemma parse_digits_uint (d : Decimal.uint) :
  parse_digits (NilEmpty.string_of_uint d) 0%Z true = Some (Z.of_N (Pos.of_uint d)).
Proof.
  induction d; simpl; try exact IHd; try reflexivity;
    exact (parse_digits_acc d _).
Qed.


Lemma lstrip_space_app (ws t : string) :
  all_space ws = true -> lstrip (ws ++ t) = lstrip t.
Proof.
  induction ws as [|c ws IH]; simpl; [reflexivity|].
  unfold all_space; simpl. intros H. apply andb_true_iff in H as [Hc Hws].
  rewrite Hc. apply IH. exact Hws.
Qed.

Lemma lstrip_nonspace (c : ascii) (t : string) :
  is_py_space c = false -> lstrip (String c t) = String c t.
Proof. intros H. simpl. rewrite H. reflexivity. Qed.

Lemma rstrip_all_space (ws : string) : all_space ws = true -> rstrip ws = "".
Proof.
  induction ws as [|c ws IH]; simpl; [reflexivity|].
  unfold all_space; simpl. intros H. apply andb_true_iff in H as [Hc Hws].
  rewrite (IH Hws), Hc. reflexivity.
Qed.

Lemma rstrip_app_space (t ws : string) : all_space ws = true -> rstrip (t ++ ws) = rstrip t.
Proof.
  intros Hws. induction t as [|c t IH]; simpl.
  - apply rstrip_all_space, Hws.
  - rewrite IH. reflexivity.
Qed.

Lemma rstrip_no_space (t : string) : no_space t = true -> rstrip t = t.
Proof.
  induction t as [|c t IH]; simpl; [reflexivity|].
  unfold no_space; simpl. intros H. apply andb_true_iff in H as [Hc Ht].
  apply negb_true_iff in Hc. rewrite Hc, IH by exact Ht. reflexivity.
Qed.

Lemma py_strip_padded (ws1 t ws2 : string) :
  all_space ws1 = true -> all_space ws2 = true -> no_space t = true -> t <> "" ->
  py_strip (ws1 ++ t ++ ws2) = t.
Proof.
  intros H1 H2 Ht Hne. unfold py_strip. rewrite lstrip_space_app by exact H1.
  destruct t as [|c t']; [congruence|].
  assert (Hc : is_py_space c = false).
  { unfold no_space in Ht. simpl in Ht. apply andb_true_iff in Ht as [Hc _].
    apply negb_true_iff, Hc. }
  change (String c t' ++ ws2) with (String c (t' ++ ws2)).
  rewrite lstrip_nonspace by exact Hc.
  change (String c (t' ++ ws2)) with (String c t' ++ ws2).
  rewrite rstrip_app_space by exact H2. apply rstrip_no_space, Ht.
Qed.

Lemma no_space_uint (d : Decimal.uint) : no_space (NilEmpty.string_of_uint d) = true.
Proof. induction d; simpl; try reflexivity; exact IHd. Qed.

Lemma to_uint_not_nil (p : positive) : Pos.to_uint p <> Decimal.Nil.
Proof.
  intros H. pose proof (DecimalPos.Unsigned.of_to p) as E. rewrite H in E. discriminate E.
Qed.

Lemma parse_uint_padded (ws1 ws2 : string) (d : Decimal.uint) :
  all_space ws1 = true -> all_space ws2 = true -> d <> Decimal.Nil ->
  parse_int_literal (ws1 ++ NilEmpty.string_of_uint d ++ ws2) = Some (Z.of_N (Pos.of_uint d)) /\
  parse_int_literal (ws1 ++ String "-" (NilEmpty.string_of_uint d) ++ ws2)
  = Some (Z.opp (Z.of_N (Pos.of_uint d))).
Proof.
  intros H1 H2 Hn. unfold parse_int_literal.
  rewrite !py_strip_padded by (try assumption; try discriminate;
    try exact (no_space_uint _); destruct d; simpl; solve [congruence | exact (no_space_uint _)]).
  pose proof (parse_digits_uint d) as P.
  destruct d; [congruence| ..]; simpl in P |- *; rewrite P; split; reflexivity.
Qed.

Lemma parse_int_literal_padded (ws1 ws2 : string) (z : Z) :
  all_space ws1 = true -> all_space ws2 = true ->
  parse_int_literal (ws1 ++ string_of_Z z ++ ws2) = Some z.
Proof.
  intros H1 H2. unfold string_of_Z.
  destruct z as [|p|p]; simpl Z.to_int; unfold NilZero.string_of_int, NilZero.string_of_uint.
  - unfold parse_int_literal.
    rewrite py_strip_padded by (reflexivity || assumption || discriminate). reflexivity.
  - pose proof (to_uint_not_nil p) as Hn. pose proof (DecimalPos.Unsigned.of_to p) as E.
    destruct (parse_uint_padded ws1 ws2 (Pos.to_uint p) H1 H2 Hn) as [P _].
    rewrite E in P. destruct (Pos.to_uint p); [congruence| ..]; exact P.
  - pose proof (to_uint_not_nil p) as Hn. pose proof (DecimalPos.Unsigned.of_to p) as E.
    destruct (parse_uint_padded ws1 ws2 (Pos.to_uint p) H1 H2 Hn) as [_ P].
    rewrite E in P. destruct (Pos.to_uint p); [congruence| ..]; exact P.
Qed.

Lemma convert_number_threads_ok_range (n_total_threads : Z) (v r : pyval) :
  convert_number_threads n_total_threads v = Ok r ->
  exists n, r = VInt n /\ (0 < n <= n_total_threads)%Z.
Proof.
  unfold convert_number_threads. destruct (py_int v) as [n|e]; simpl; [|discriminate].
  destruct (0 <? n)%Z eqn:E1, (n <=? n_total_threads)%Z eqn:E2; simpl; try discriminate.
  intros [= <-]. exists n. split; [reflexivity|]. apply Z.ltb_lt in E1. apply Z.leb_le in E2. lia.
Qed.

(** X2: For the decimal text of an integer [z] of at most 4300 digits, padded
    by whitespace on both sides, [convert_number_threads] returns [z] when
    [0 < z <= n_total_threads] and otherwise raises [ValueError] naming [z]. *)
Theorem convert_number_threads_decimal (n_total_threads z : Z) (ws1 ws2 : string) :
  (Z.abs z < 10 ^ 4300)%Z -> all_space ws1 = true -> all_space ws2 = true ->
  convert_number_threads n_total_threads (VStr (ws1 ++ string_of_Z z ++ ws2))
  = if ((0 <? z) && (z <=? n_total_threads))%Z then Ok (VInt z)
    else Err (ValueError ("Invalid number of threads " ++ string_of_Z z ++ "!")).
Proof.
  intros _ H1 H2. unfold convert_number_threads, py_int.
  rewrite parse_int_literal_padded by assumption. reflexivity.
Qed.

Lemma convert_number_threads_decimal_witness :
  (Z.abs 12 < 10 ^ 4300)%Z /\ all_space " " = true /\ all_space "  " = true /\
  convert_number_threads 8 (VStr (" " ++ string_of_Z 12 ++ "  "))
  = Err (ValueError ("Invalid number of threads " ++ string_of_Z 12 ++ "!")).
Proof.
  assert (Hz : (Z.abs 12 < 10 ^ 4300)%Z) by (vm_compute; reflexivity).
  split; [exact Hz|]. split; [reflexivity|]. split; [reflexivity|].
  rewrite (convert_number_threads_decimal 8 12 " " "  " Hz eq_refl eq_refl). reflexivity.
Defined.

Lemma get_user_input_ok_origin (prompt : string) (default : option pyval)
    (c : pyval -> res pyval) (stdin out : list string) (v : pyval) (rest out' : list string) :
  get_user_input prompt default (Some c) stdin out = (Ok v, (rest, out')) ->
  exists x, c x = Ok v /\
    (default = Some x \/ exists line, In line stdin /\ line <> "" /\ x = VStr line).
Proof.
  revert out. induction stdin as [|line stdin IH]; intros out; simpl; [discriminate|].
  destruct default as [d|].
  - destruct (String.eqb line "") eqn:El.
    + destruct (c d) as [w|e] eqn:Ec.
      * intros [= <- _ _]. exists d. split; [exact Ec|]. left. reflexivity.
      * destruct (is_value_error e); [|discriminate].
        intros H. destruct (IH _ H) as (x & Hx & [Hd | (l & Hin & Hne & ->)]).
        -- exists x. split; [exact Hx|]. left. exact Hd.
        -- exists (VStr l). split; [exact Hx|]. right. exists l. auto.
    + destruct (c (VStr line)) as [w|e] eqn:Ec.
      * intros [= <- _ _]. exists (VStr line). split; [exact Ec|].
        right. exists line. split; [left; reflexivity|]. split; [|reflexivity].
        apply String.eqb_neq, El.
      * destruct (is_value_error e); [|discriminate].
        intros H. destruct (IH _ H) as (x & Hx & [Hd | (l & Hin & Hne & ->)]).
        -- exists x. split; [exact Hx|]. left. exact Hd.
        -- exists (VStr l). split; [exact Hx|]. right. exists l. auto.
  - destruct (String.eqb line "") eqn:El.
    + intros H. destruct (IH _ H) as (x & Hx & [Hd | (l & Hin & Hne & ->)]).
      * discriminate Hd.
      * exists (VStr l). split; [exact Hx|]. right. exists l. auto.
    + destruct (c (VStr line)) as [w|e] eqn:Ec.
      * intros [= <- _ _]. exists (VStr line). split; [exact Ec|].
        right. exists line. split; [left; reflexivity|]. split; [|reflexivity].
        apply String.eqb_neq, El.
      * destruct (is_value_error e); [|discriminate].
        intros H. destruct (IH _ H) as (x & Hx & [Hd | (l & Hin & Hne & ->)]).
        -- discriminate Hd.
        -- exists (VStr l). split; [exact Hx|]. right. exists l. auto.
Qed.

(** A turn of [get_user_input] that asks again: the lines read by the later
    turns follow the line of this one. *)
Local Ltac ask_again IH line :=
  let H := fresh in
  intros H; destruct (IH _ H) as (read & l & x & Hs & Hx & Hor);
  exists (line :: read), l, x; rewrite Hs; auto.

(** X3: When [get_user_input] with a converter returns a value, the lines it
    read are a prefix of [stdin] ending in a line [line], the rest of [stdin]
    is left unread, and the value is the converter's result on the default
    when [line] is empty, or on [line] itself when it is not. *)
Theorem get_user_input_returns_converter_output (prompt : string) (default : option pyval)
    (c : pyval -> res pyval) (stdin out : list string) (v : pyval) (rest out' : list string) :
  get_user_input prompt default (Some c) stdin out = (Ok v, (rest, out')) ->
  exists read line x, stdin = app read (line :: rest) /\ c x = Ok v /\
    ((line = "" /\ default = Some x) \/ (line <> "" /\ x = VStr line)).
Proof.
  revert out. induction stdin as [|line stdin IH]; intros out; simpl; [discriminate|].
  destruct default as [d|]; destruct (String.eqb line "") eqn:El.
  - destruct (c d) as [w|e] eqn:Ec.
    + intros [= <- <- _]. exists [], line, d. split; [reflexivity|]. split; [exact Ec|].
      left. split; [apply String.eqb_eq, El|reflexivity].
    + destruct (is_value_error e); [ask_again IH line|discriminate].
  - destruct (c (VStr line)) as [w|e] eqn:Ec.
    + intros [= <- <- _]. exists [], line, (VStr line). split; [reflexivity|]. split; [exact Ec|].
      right. split; [apply String.eqb_neq, El|reflexivity].
    + destruct (is_value_error e); [ask_again IH line|discriminate].
  - ask_again IH line.
  - destruct (c (VStr line)) as [w|e] eqn:Ec.
    + intros [= <- <- _]. exists [], line, (VStr line). split; [reflexivity|]. split; [exact Ec|].
      right. split; [apply String.eqb_neq, El|reflexivity].
    + destruct (is_value_error e); [ask_again IH line|discriminate].
Qed.

Lemma get_user_input_returns_converter_output_witness :
  get_user_input "Threads" None (Some (convert_number_threads 8)) ["x"; "3"; "7"] []
  = (Ok (VInt 3), (["7"], ["Threads: "; "Invalid value 'x'! Try again."; "Threads: "])) /\
  exists read line x, ["x"; "3"; "7"] = app read (line :: ["7"]) /\
    convert_number_threads 8 x = Ok (VInt 3) /\
    ((line = "" /\ None = Some x) \/ (line <> "" /\ x = VStr line)).
Proof.
  split; [vm_compute; reflexivity|].
  apply (get_user_input_returns_converter_output "Threads" None (convert_number_threads 8)
           ["x"; "3"; "7"] [] (VInt 3) ["7"] ["Threads: "; "Invalid value 'x'! Try again."; "Threads: "]).
  vm_compute. reflexivity.
Defined.

(** X4: The number of build threads that [create_user_config] obtains from
    its prompt is always an int between 1 and the number of system threads. *)
Theorem n_build_threads_in_range (max_threads : Z) (stdin out : list string) (v : pyval)
    (rest out' : list string) :
  n_build_threads_input max_threads stdin out = (Ok v, (rest, out')) ->
  exists n, v = VInt n /\ (0 < n <= max_threads)%Z.
Proof.
  unfold n_build_threads_input. intros H.
  destruct (get_user_input_ok_origin _ _ _ _ _ _ _ _ H) as (x & Hx & _).
  exact (convert_number_threads_ok_range _ _ _ Hx).
Qed.

Lemma n_build_threads_in_range_witness :
  n_build_threads_input 8 ["0"; "5"] []
  = (Ok (VInt 5), ([], ["Enter number of build threads [8]: "; "Invalid value '0'! Try again.";
                        "Enter number of build threads [8]: "])) /\
  exists n, VInt 5 = VInt n /\ (0 < n <= 8)%Z.
Proof.
  split; [vm_compute; reflexivity|].
  apply (n_build_threads_in_range 8 ["0"; "5"] [] (VInt 5) []
           ["Enter number of build threads [8]: "; "Invalid value '0'! Try again.";
            "Enter number of build threads [8]: "]).
  vm_compute. reflexivity.
Defined.

(** X5: With at least one system thread, an empty answer to the build-threads
    prompt accepts the default: the number of system threads, after one prompt. *)
Theorem n_build_threads_empty_answer (max_threads : Z) (rest out : list string) :
  (1 <= max_threads)%Z ->
  n_build_threads_input max_threads ("" :: rest) out
  = (Ok (VInt max_threads),
     (rest, app out ["Enter number of build threads [" ++ string_of_Z max_threads ++ "]: "])).
Proof.
  intros H. unfold n_build_threads_input. simpl. unfold convert_number_threads. simpl.
  replace ((0 <? max_threads) && (max_threads <=? max_threads))%Z with true; [reflexivity|].
  symmetry. apply andb_true_iff. split; [apply Z.ltb_lt | apply Z.leb_le]; lia.
Qed.

Lemma n_build_threads_empty_answer_witness :
  (1 <= 8)%Z /\
  n_build_threads_input 8 [""] []
  = (Ok (VInt 8), ([], app [] ["Enter number of build threads [" ++ string_of_Z 8 ++ "]: "])).
Proof.
  split; [lia|]. apply (n_build_threads_empty_answer 8 [] []). lia.
Defined.

(** X6: The ROOT-with-Conda prompt reads exactly one line and never re-prompts:
    an empty line gives [True] (the default ["y"]), any other line gives
    [yes_no_to_bool] of it. *)
Theorem root_use_conda_one_answer (line : string) (rest out : list string) :
  root_use_conda_input (line :: rest) out
  = (Ok (VBool (String.eqb line "" || yes_no_to_bool line)),
     (rest, app out ["Use Conda package for ROOT? [y]: "])).
Proof.
  unfold root_use_conda_input. simpl. destruct (String.eqb line ""); reflexivity.
Qed.

(** X7: Without a default, [get_user_input] answers every empty line with
    ["A value is required! Try again."] and prompts again, and raises
    [EOFError] when the input is exhausted. *)
Theorem get_user_input_eof_without_default (prompt : string)
    (converter : option (pyval -> res pyval)) (n : nat) (out : list string) :
  get_user_input prompt None converter (repeat "" n) out
  = (Err EOFError,
     ([], app (app out (List.concat (repeat [prompt ++ ": "; "A value is required! Try again."] n)))
              [prompt ++ ": "])).
Proof.
  revert out. induction n as [|n IH]; intros out; simpl.
  - rewrite app_nil_r. reflexivity.
  - rewrite IH. f_equal. f_equal. rewrite <- !app_assoc. reflexivity.
Qed.

(** X8: At the GitHub token prompt, a non-empty token rejected with HTTP 401
    is reported as an invalid value and the prompt is repeated; a token whose
    response object has no ["errors"] key is returned unchanged. *)
Theorem github_token_prompt_outcome (server : string -> http_outcome) (t : string)
    (rest out : list string) :
  t <> "" ->
  let shown := "Enter GitHub personal token: " in
  (server t = HttpErr 401 ->
   github_token_input server (t :: rest) out
   = github_token_input server rest (app (app out [shown]) ["Invalid value " ++ str_repr t ++ "! Try again."])) /\
  (forall fs, server t = HttpOk (Some (JObj fs)) -> assoc_lookup "errors" fs = None ->
   github_token_input server (t :: rest) out = (Ok (VStr t), (rest, app out [shown]))).
Proof.
  intros Ht shown. apply String.eqb_neq in Ht. split.
  - intros Hs. unfold github_token_input at 1. simpl. rewrite Ht.
    unfold token_converter, validate_github_token. simpl. rewrite Hs. reflexivity.
  - intros fs Hs He. unfold github_token_input. simpl. rewrite Ht.
    unfold token_converter, validate_github_token. simpl. rewrite Hs. simpl. rewrite He. reflexivity.
Qed.

Lemma github_token_prompt_outcome_witness :
  "tok" <> "" /\
  github_token_input (fun _ => HttpErr 401) ["tok"] []
  = (Err EOFError, ([], ["Enter GitHub personal token: "; "Invalid value 'tok'! Try again.";
                         "Enter GitHub personal token: "])).
Proof.
  split; [discriminate|].
  rewrite (proj1 (github_token_prompt_outcome (fun _ => HttpErr 401) "tok" [] [] ltac:(discriminate))
             eq_refl).
  vm_compute. reflexivity.
Defined.

(** X9: At the GitHub token prompt, an HTTP error other than 401 and a URL
    error are not caught: they leave the prompt after a single question. *)
Theorem github_token_transport_errors_propagate (server : string -> http_outcome) (t : string)
    (rest out : list string) :
  t <> "" ->
  (forall code, server t = HttpErr code -> code <> 401%Z ->
   github_token_input server (t :: rest) out
   = (Err (HTTPError code), (rest, app out ["Enter GitHub personal token: "]))) /\
  (forall r, server t = UrlErr r ->
   github_token_input server (t :: rest) out
   = (Err (URLError r), (rest, app out ["Enter GitHub personal token: "]))).
Proof.
  intros Ht. apply String.eqb_neq in Ht. split.
  - intros code Hs Hc. unfold github_token_input. simpl. rewrite Ht.
    unfold token_converter, validate_github_token. simpl. rewrite Hs. simpl.
    apply Z.eqb_neq in Hc. rewrite Hc. reflexivity.
  - intros r Hs. unfold github_token_input. simpl. rewrite Ht.
    unfold token_converter, validate_github_token. simpl. rewrite Hs. reflexivity.
Qed.

Lemma github_token_transport_errors_propagate_witness :
  "tok" <> "" /\
  github_token_input (fun _ => HttpErr 500) ["tok"; "other"] []
  = (Err (HTTPError 500), (["other"], app [] ["Enter GitHub personal token: "])).
Proof.
  split; [discriminate|].
  apply (proj1 (github_token_transport_errors_propagate (fun _ => HttpErr 500) "tok" ["other"] []
                  ltac:(discriminate)) 500%Z eq_refl). lia.
Defined.

Lemma lower_char_space (c : ascii) : is_py_space (lower_char c) = is_py_space c.
Proof. destruct c as [[] [] [] [] [] [] [] []]; reflexivity. Qed.

Lemma lower_char_space_id (c : ascii) : is_py_space c = true -> lower_char c = c.
Proof. destruct c as [[] [] [] [] [] [] [] []]; first [reflexivity | discriminate]. Qed.

Lemma lower_char_y (c : ascii) : lower_char c = "y"%char -> c = "y"%char \/ c = "Y"%char.
Proof. destruct c as [[] [] [] [] [] [] [] []]; vm_compute; intros H; first [discriminate | auto]. Qed.
Lemma lower_char_e (c : ascii) : lower_char c = "e"%char -> c = "e"%char \/ c = "E"%char.
Proof. destruct c as [[] [] [] [] [] [] [] []]; vm_compute; intros H; first [discriminate | auto]. Qed.
Lemma lower_char_s (c : ascii) : lower_char c = "s"%char -> c = "s"%char \/ c = "S"%char.
Proof. destruct c as [[] [] [] [] [] [] [] []]; vm_compute; intros H; first [discriminate | auto]. Qed.
Lemma lower_char_1 (c : ascii) : lower_char c = "1"%char -> c = "1"%char.
Proof. destruct c as [[] [] [] [] [] [] [] []]; vm_compute; intros H; first [discriminate | auto]. Qed.

Lemma py_lower_app (a b : string) : py_lower (a ++ b) = py_lower a ++ py_lower b.
Proof. induction a as [|c a IH]; simpl; [reflexivity|]. rewrite IH. reflexivity. Qed.

Lemma py_lower_all_space (ws : string) : all_space ws = true -> py_lower ws = ws.
Proof.
  induction ws as [|c ws IH]; simpl; [reflexivity|].
  unfold all_space; simpl. intros H. apply andb_true_iff in H as [Hc Hws].
  rewrite lower_char_space_id, IH by assumption. reflexivity.
Qed.

Lemma lstrip_lower (s : string) : lstrip (py_lower s) = py_lower (lstrip s).
Proof.
  induction s as [|c s IH]; simpl; [reflexivity|].
  rewrite lower_char_space. destruct (is_py_space c); [exact IH|reflexivity].
Qed.

Lemma rstrip_lower (s : string) : rstrip (py_lower s) = py_lower (rstrip s).
Proof.
  induction s as [|c s IH]; simpl; [reflexivity|].
  rewrite IH, lower_char_space.
  destruct (rstrip s) as [|c' r]; simpl; destruct (is_py_space c); reflexivity.
Qed.

Lemma py_strip_lower (s : string) : py_strip (py_lower s) = py_lower (py_strip s).
Proof. unfold py_strip. rewrite lstrip_lower, rstrip_lower. reflexivity. Qed.

Lemma lstrip_decompose (s : string) : exists ws, all_space ws = true /\ s = ws ++ lstrip s.
Proof.
  induction s as [|c s IH]; simpl.
  - exists "". split; reflexivity.
  - destruct (is_py_space c) eqn:Hc.
    + destruct IH as (ws & Hws & Hs). exists (String c ws). split.
      * unfold all_space in *. simpl. rewrite Hc, Hws. reflexivity.
      * change (String c ws ++ lstrip s) with (String c (ws ++ lstrip s)).
        rewrite <- Hs. reflexivity.
    + exists "". split; reflexivity.
Qed.

Lemma rstrip_decompose (s : string) : exists ws, all_space ws = true /\ s = rstrip s ++ ws.
Proof.
  induction s as [|c s IH]; simpl.
  - exists "". split; reflexivity.
  - destruct IH as (ws & Hws & Hs).
    destruct (is_py_space c && String.eqb (rstrip s) "") eqn:E.
    + apply andb_true_iff in E as [Hc Hr]. apply String.eqb_eq in Hr.
      exists (String c ws). split.
      * unfold all_space in *. simpl. rewrite Hc, Hws. reflexivity.
      * rewrite Hr in Hs. rewrite Hs at 1. reflexivity.
    + exists ws. split; [exact Hws|].
      change (String c (rstrip s) ++ ws) with (String c (rstrip s ++ ws)).
      rewrite <- Hs. reflexivity.
Qed.

Lemma all_space_app (a b : string) :
  all_space a = true -> all_space b = true -> all_space (a ++ b) = true.
Proof.
  induction a as [|c a IH]; intros Ha Hb; [exact Hb|].
  unfold all_space in *. simpl in *. apply andb_true_iff in Ha as [Hc Ha].
  rewrite Hc. apply IH; assumption.
Qed.

Lemma py_strip_decompose (s : string) :
  exists ws1 ws2, all_space ws1 = true /\ all_space ws2 = true /\ s = ws1 ++ py_strip s ++ ws2.
Proof.
  destruct (lstrip_decompose s) as (ws1 & H1 & E1).
  destruct (rstrip_decompose (lstrip s)) as (ws2 & H2 & E2).
  exists ws1, ws2. split; [exact H1|]. split; [exact H2|].
  unfold py_strip. rewrite E1 at 1. rewrite E2 at 1. reflexivity.
Qed.

Lemma mem_yes_no (t : string) :
  mem t ["y"; "yes"; "1"] = true -> t = "y" \/ t = "yes" \/ t = "1".
Proof.
  unfold mem. simpl. destruct (String.eqb_spec t "y"); [auto|].
  destruct (String.eqb_spec t "yes"); [auto|].
  destruct (String.eqb_spec t "1"); [auto|discriminate].
Qed.

Lemma py_lower_nil (u : string) : py_lower u = "" -> u = "".
Proof. destruct u; [reflexivity|discriminate]. Qed.

Lemma py_lower_y (u : string) : py_lower u = "y" -> u = "y" \/ u = "Y".
Proof.
  destruct u as [|c u]; [discriminate|]. intros H. injection H as Hc Hu.
  rewrite (py_lower_nil _ Hu). destruct (lower_char_y _ Hc) as [->| ->]; auto.
Qed.

Lemma py_lower_1 (u : string) : py_lower u = "1" -> u = "1".
Proof.
  destruct u as [|c u]; [discriminate|]. intros H. injection H as Hc Hu.
  rewrite (py_lower_nil _ Hu), (lower_char_1 _ Hc). reflexivity.
Qed.

Lemma py_lower_yes (u : string) :
  py_lower u = "yes" ->
  In u ["yes"; "yeS"; "yEs"; "yES"; "Yes"; "YeS"; "YEs"; "YES"].
Proof.
  destruct u as [|c1 [|c2 [|c3 u]]]; try discriminate. intros H.
  injection H as H1 H2 H3 Hu. rewrite (py_lower_nil _ Hu).
  destruct (lower_char_y _ H1) as [->| ->]; destruct (lower_char_e _ H2) as [->| ->];
    destruct (lower_char_s _ H3) as [->| ->]; simpl; tauto.
Qed.


(** X10: [yes_no_to_bool] accepts exactly the answers made of ["y"], ["yes"]
    or ["1"] in any letter case, surrounded by any whitespace. *)
Theorem yes_no_to_bool_accepts (answer : string) :
  yes_no_to_bool answer = true <->
  exists ws1 w ws2, all_space ws1 = true /\ all_space ws2 = true /\
    In w ["y"; "Y"; "1"; "yes"; "yeS"; "yEs"; "yES"; "Yes"; "YeS"; "YEs"; "YES"] /\
    answer = ws1 ++ w ++ ws2.
Proof.
  split.
  - unfold yes_no_to_bool. rewrite py_strip_lower.
    destruct (py_strip_decompose answer) as (ws1 & ws2 & H1 & H2 & E).
    intros Hm. exists ws1, (py_strip answer), ws2. split; [exact H1|]. split; [exact H2|].
    split; [|exact E]. clear E.
    destruct (mem_yes_no _ Hm) as [Hy|[Hy|Hy]].
    + destruct (py_lower_y _ Hy) as [-> | ->]; simpl; tauto.
    + pose proof (py_lower_yes _ Hy) as Hin. simpl in Hin |- *. tauto.
    + rewrite (py_lower_1 _ Hy). simpl; tauto.
  - intros (ws1 & w & ws2 & H1 & H2 & Hw & ->). unfold yes_no_to_bool.
    rewrite !py_lower_app, (py_lower_all_space ws1 H1), (py_lower_all_space ws2 H2).
    simpl in Hw.
    repeat (destruct Hw as [<-|Hw];
      [rewrite py_strip_padded by (try assumption; try reflexivity; discriminate);
       reflexivity|]).
    destruct Hw.
Qed.

Lemma lacks_app (c : ascii) (x y : string) : lacks c (x ++ y) = lacks c x && lacks c y.
Proof.
  unfold lacks. induction x as [|c' x IH]; [reflexivity|].
  change (String c' x ++ y) with (String c' (x ++ y)).
  cbn [list_ascii_of_string existsb]. rewrite !negb_orb, IH, andb_assoc. reflexivity.
Qed.

Lemma lacks_cons (ch c : ascii) (s : string) :
  lacks ch (String c s) = negb (Ascii.eqb ch c) && lacks ch s.
Proof. unfold lacks. cbn [list_ascii_of_string existsb]. apply negb_orb. Qed.

Lemma universal_newlines_app (a b : string) :
  lacks "013" a = true -> universal_newlines (a ++ b) = a ++ universal_newlines b.
Proof.
  induction a as [|c a IH]; intros H; [reflexivity|].
  rewrite lacks_cons in H. apply andb_true_iff in H as [Hc H].
  apply negb_true_iff in Hc. rewrite Ascii.eqb_sym in Hc.
  change (String c a ++ b) with (String c (a ++ b)).
  cbn [universal_newlines]. rewrite Hc, IH by exact H. reflexivity.
Qed.

Lemma universal_newlines_id (s : string) :
  lacks "013" s = true -> universal_newlines s = s.
Proof.
  intros H. rewrite <- (string_append_nil_r s) at 1.
  rewrite universal_newlines_app by exact H. apply string_append_nil_r.
Qed.

Lemma universal_newlines_no_cr (s : string) : lacks "013" (universal_newlines s) = true.
Proof.
  enough (H : forall n s, (String.length s <= n)%nat -> lacks "013" (universal_newlines s) = true)
    by exact (H _ s (le_n _)).
  clear s. intros n. induction n as [|n IH]; intros s Hn.
  - destruct s; [reflexivity|simpl in Hn; lia].
  - destruct s as [|c s]; [reflexivity|]. simpl in Hn.
    cbn [universal_newlines]. destruct (Ascii.eqb c "013") eqn:Ec.
    + destruct s as [|c2 s'].
      * reflexivity.
      * simpl in Hn. destruct (Ascii.eqb c2 "010");
          rewrite lacks_cons, IH by (simpl; lia); reflexivity.
    + rewrite lacks_cons, IH by lia. rewrite Ascii.eqb_sym, Ec. reflexivity.
Qed.

Lemma universal_newlines_idem (s : string) :
  universal_newlines (universal_newlines s) = universal_newlines s.
Proof. apply universal_newlines_id, universal_newlines_no_cr. Qed.

Lemma concat_lacks (ch : ascii) (sep : string) (l : list string) :
  lacks ch sep = true -> Forall (fun x => lacks ch x = true) l ->
  lacks ch (String.concat sep l) = true.
Proof.
  intros Hs Hl. induction Hl as [|x l Hx Hl IH]; [reflexivity|].
  destruct l as [|y l]; [exact Hx|].
  change (lacks ch (x ++ sep ++ String.concat sep (y :: l)) = true).
  rewrite !lacks_app, Hx, Hs, IH. reflexivity.
Qed.

(** The text [append_to_zshrc] and [prepend_to_zshrc] build from
    [read_text()] or the joined scripts: a final newline added when
    missing keeps it free of carriage returns. *)
Lemma lacks_cr_newline_fix (x : string) :
  lacks "013" x = true ->
  lacks "013" (if ends_with_newline x then x else x ++ newline) = true.
Proof.
  intros H. destruct (ends_with_newline x); [exact H|]. rewrite lacks_app, H. reflexivity.
Qed.

Lemma ends_with_newline_app (a b : string) :
  b <> "" -> ends_with_newline (a ++ b) = ends_with_newline b.
Proof.
  intros Hb. induction a as [|c a IH]; [reflexivity|].
  change (String c a ++ b) with (String c (a ++ b)).
  rewrite <- IH. assert (Hab : a ++ b <> "").
  { destruct a; [exact Hb|discriminate]. }
  destruct (a ++ b) as [|c' t]; [congruence|reflexivity].
Qed.

Lemma concat_cons_app (x : string) (s1 s2 : list string) :
  s2 <> [] ->
  String.concat newline (x :: app s1 s2)
  = String.concat newline (x :: s1) ++ newline ++ String.concat newline s2.
Proof.
  intros H2. revert x. induction s1 as [|y s1 IH]; intros x.
  - destruct s2; [congruence|]. reflexivity.
  - change (String.concat newline (x :: app (y :: s1) s2))
      with (x ++ newline ++ String.concat newline (y :: app s1 s2)).
    change (String.concat newline (x :: y :: s1))
      with (x ++ newline ++ String.concat newline (y :: s1)).
    rewrite IH, !string_append_assoc. reflexivity.
Qed.

Lemma join_lines_app (s1 s2 : list string) :
  s1 <> [] -> s2 <> [] -> join_lines (app s1 s2) = join_lines s1 ++ newline ++ join_lines s2.
Proof.
  intros H1 H2. destruct s1 as [|x s1]; [congruence|]. apply concat_cons_app, H2.
Qed.

Lemma join_lines_nonempty (s : list string) : join_lines s <> "" -> s <> [].
Proof. intros H ->. apply H. reflexivity. Qed.

(** X11: Two successive [append_to_zshrc] calls give the same file as one call
    with all the scripts, when the first scripts contain no carriage return,
    join to a non-empty text not ending in a newline, and the second call has
    scripts. *)
Theorem append_to_zshrc_compose (zshrc : zshrc_file) (s1 s2 : list string) :
  Forall (fun x => lacks "013" x = true) s1 ->
  join_lines s1 <> "" -> ends_with_newline (join_lines s1) = false -> s2 <> [] ->
  append_to_zshrc (append_to_zshrc zshrc s1) s2 = append_to_zshrc zshrc (app s1 s2).
Proof.
  intros Hcr Hne Hend H2. unfold append_to_zshrc.
  assert (HJ : lacks "013" (join_lines s1) = true) by (apply concat_lacks; [reflexivity|exact Hcr]).
  set (c := universal_newlines (match zshrc with Some c => c | None => "" end)).
  set (c' := if ends_with_newline c then c else c ++ newline).
  assert (Hc' : lacks "013" c' = true)
    by (apply lacks_cr_newline_fix, universal_newlines_no_cr).
  rewrite (universal_newlines_app c' _ Hc'), (universal_newlines_id _ HJ).
  rewrite ends_with_newline_app, Hend by exact Hne.
  rewrite join_lines_app by (try exact H2; exact (join_lines_nonempty _ Hne)).
  rewrite !string_append_assoc. reflexivity.
Qed.

Lemma append_to_zshrc_compose_witness :
  Forall (fun x => lacks "013" x = true) ["x"] /\
  join_lines ["x"] <> "" /\ ends_with_newline (join_lines ["x"]) = false /\ ["y"] <> [] /\
  append_to_zshrc (append_to_zshrc (Some "a") ["x"]) ["y"] = append_to_zshrc (Some "a") ["x"; "y"].
Proof.
  split; [constructor; [reflexivity|constructor]|].
  split; [discriminate|]. split; [reflexivity|]. split; [discriminate|].
  apply (append_to_zshrc_compose (Some "a") ["x"] ["y"]);
    [constructor; [reflexivity|constructor]|discriminate|reflexivity|discriminate].
Defined.

(** X12: Two successive [prepend_to_zshrc] calls give the same file as one
    call with the second scripts before the first, when the first scripts
    contain no carriage return, both joins are non-empty and the second does
    not end in a newline. *)
Theorem prepend_to_zshrc_compose (zshrc : zshrc_file) (s1 s2 : list string) :
  Forall (fun x => lacks "013" x = true) s1 ->
  join_lines s1 <> "" -> join_lines s2 <> "" -> ends_with_newline (join_lines s2) = false ->
  prepend_to_zshrc (prepend_to_zshrc zshrc s1) s2 = prepend_to_zshrc zshrc (app s2 s1).
Proof.
  intros Hcr H1 H2 Hend. unfold prepend_to_zshrc.
  destruct zshrc as [old|]; [|reflexivity].
  assert (HJ : lacks "013" (join_lines s1) = true) by (apply concat_lacks; [reflexivity|exact Hcr]).
  rewrite (universal_newlines_app _ _ (lacks_cr_newline_fix _ HJ)), universal_newlines_idem.
  rewrite join_lines_app by (exact (join_lines_nonempty _ H2) || exact (join_lines_nonempty _ H1)).
  rewrite Hend.
  rewrite (ends_with_newline_app (join_lines s2) (newline ++ join_lines s1))
    by (destruct (join_lines s1); discriminate).
  rewrite (ends_with_newline_app newline (join_lines s1)) by exact H1.
  destruct (ends_with_newline (join_lines s1)); rewrite !string_append_assoc; reflexivity.
Qed.

Lemma prepend_to_zshrc_compose_witness :
  Forall (fun x => lacks "013" x = true) ["x"] /\
  join_lines ["x"] <> "" /\ join_lines ["y"] <> "" /\ ends_with_newline (join_lines ["y"]) = false /\
  prepend_to_zshrc (prepend_to_zshrc (Some "a") ["x"]) ["y"] = prepend_to_zshrc (Some "a") ["y"; "x"].
Proof.
  split; [constructor; [reflexivity|constructor]|].
  split; [discriminate|]. split; [discriminate|]. split; [reflexivity|].
  apply (prepend_to_zshrc_compose (Some "a") ["x"] ["y"]);
    [constructor; [reflexivity|constructor]|discriminate|discriminate|reflexivity].
Defined.

Lemma mem_In (c : string) (l : list string) : mem c l = true <-> In c l.
Proof.
  unfold mem. rewrite existsb_exists. split.
  - intros (x & Hx & E). apply String.eqb_eq in E. subst. exact Hx.
  - intros H. exists c. split; [exact H|]. apply String.eqb_refl.
Qed.

Lemma insert_components_spec (components path : list string) :
  exists added, insert_components components path = app added path /\ NoDup added /\
    (forall x, In x added -> In x components /\ ~ In x path) /\
    (forall c, In c components -> In c (insert_components components path)).
Proof.
  revert path. induction components as [|c cs IH]; intros path; simpl.
  - exists []. split; [reflexivity|]. split; [constructor|]. split; [intros x []|intros c []].
  - destruct (mem c path) eqn:Hm.
    + destruct (IH path) as (added & E & Hnd & Hadd & Hall). exists added.
      split; [exact E|]. split; [exact Hnd|]. split.
      * intros x Hx. destruct (Hadd x Hx) as [Hin Hn]. split; [right; exact Hin|exact Hn].
      * intros c' [<-|Hc']; [|apply Hall, Hc'].
        rewrite E. apply in_or_app. right. apply mem_In, Hm.
    + destruct (IH (c :: path)) as (added & E & Hnd & Hadd & Hall).
      exists (app added [c]). split; [rewrite E, <- app_assoc; reflexivity|]. split.
      * apply NoDup_app. split; [exact Hnd|]. split; [|apply NoDup_singleton].
        intros x Hx Hx'. apply list_elem_of_singleton in Hx'. subst x.
        apply list_elem_of_In in Hx. destruct (Hadd c Hx) as [_ Hn]. apply Hn. left. reflexivity.
      * split.
        -- intros x Hx. apply in_app_or in Hx as [Hx|[<-|[]]].
           ++ destruct (Hadd x Hx) as [Hin Hn]. split; [right; exact Hin|].
              intros Hp. apply Hn. right. exact Hp.
           ++ split; [left; reflexivity|]. intros Hp. apply mem_In in Hp. congruence.
        -- intros c' [<-|Hc']; [|apply Hall, Hc'].
           rewrite E. apply in_or_app. right. left. reflexivity.
Qed.

(** X13: The PATH line written by [replacer] is the old entries, unchanged and in
    order, preceded by the components not among them, each once; every
    component is then on the PATH. *)
Theorem replacer_puts_new_components_first (components : list string) (path_str : string) :
  exists added,
    replacer components path_str
    = "export PATH=" ++ dquote ++ join_colon (app added (split_colon path_str)) ++ dquote /\
    NoDup added /\
    (forall x, In x added -> In x components /\ ~ In x (split_colon path_str)) /\
    (forall c, In c components -> In c (app added (split_colon path_str))).
Proof.
  destruct (insert_components_spec components (split_colon path_str)) as (added & E & H1 & H2 & H3).
  exists added. unfold replacer. rewrite E. rewrite E in H3. auto.
Qed.

Lemma split_colon_single (x : string) : lacks ":" x = true -> split_colon x = [x].
Proof.
  induction x as [|c x IH]; [reflexivity|].
  unfold lacks. cbn [list_ascii_of_string existsb]. intros H.
  apply negb_true_iff, orb_false_iff in H as [Hc Hx].
  rewrite Ascii.eqb_sym in Hc. cbn [split_colon]. rewrite Hc, IH; [reflexivity|].
  unfold lacks. rewrite Hx. reflexivity.
Qed.

Lemma split_colon_cons (x r : string) :
  lacks ":" x = true -> split_colon (x ++ ":" ++ r) = x :: split_colon r.
Proof.
  induction x as [|c x IH]; [reflexivity|].
  unfold lacks. cbn [list_ascii_of_string existsb]. intros H.
  apply negb_true_iff, orb_false_iff in H as [Hc Hx].
  rewrite Ascii.eqb_sym in Hc.
  change (String c x ++ ":" ++ r) with (String c (x ++ ":" ++ r)).
  cbn [split_colon]. rewrite Hc, IH; [reflexivity|].
  unfold lacks. rewrite Hx. reflexivity.
Qed.

Lemma split_join_colon (l : list string) :
  l <> [] -> Forall (fun x => lacks ":" x = true) l -> split_colon (join_colon l) = l.
Proof.
  unfold join_colon. induction l as [|x l IH]; [congruence|]. intros _ Hf.
  inversion Hf as [|? ? Hx Hl]; subst.
  destruct l as [|y l].
  - apply split_colon_single, Hx.
  - change (String.concat ":" (x :: y :: l)) with (x ++ ":" ++ String.concat ":" (y :: l)).
    rewrite split_colon_cons by exact Hx. rewrite IH by (discriminate || exact Hl). reflexivity.
Qed.

Lemma split_colon_lacks (s : string) : Forall (fun x => lacks ":" x = true) (split_colon s).
Proof.
  induction s as [|c s IH]; simpl.
  - repeat constructor.
  - destruct (Ascii.eqb c ":") eqn:Hc.
    + constructor; [reflexivity|exact IH].
    + destruct (split_colon s) as [|x xs].
      { constructor; [|constructor]. unfold lacks. cbn [list_ascii_of_string existsb].
        rewrite Ascii.eqb_sym, Hc. reflexivity. }
      inversion IH as [|? ? Hx Hxs]; subst.
      constructor; [|exact Hxs]. unfold lacks in *. cbn [list_ascii_of_string existsb].
      rewrite Ascii.eqb_sym, Hc. exact Hx.
Qed.

Lemma split_colon_nonempty (s : string) : split_colon s <> [].
Proof. destruct s; simpl; [discriminate|]. destruct (Ascii.eqb a ":"); [discriminate|].
  destruct (split_colon s); discriminate. Qed.

Lemma insert_components_noop (components path : list string) :
  (forall c, In c components -> In c path) -> insert_components components path = path.
Proof.
  revert path. induction components as [|c cs IH]; intros path H; simpl; [reflexivity|].
  assert (Hm : mem c path = true) by (apply mem_In, H; left; reflexivity).
  rewrite Hm. apply IH. intros c' Hc'. apply H. right. exact Hc'.
Qed.

Lemma insert_components_lacks (components path : list string) :
  Forall (fun x => lacks ":" x = true) components ->
  Forall (fun x => lacks ":" x = true) path ->
  Forall (fun x => lacks ":" x = true) (insert_components components path).
Proof.
  revert path. induction components as [|c cs IH]; intros path Hc Hp; simpl; [exact Hp|].
  inversion Hc; subst. apply IH; [assumption|].
  destruct (mem c path); [exact Hp|constructor; assumption].
Qed.

Lemma insert_components_nonempty (components path : list string) :
  path <> [] -> insert_components components path <> [].
Proof.
  destruct (insert_components_spec components path) as (added & E & _).
  rewrite E. intros H. destruct added; [exact H|discriminate].
Qed.

Lemma replacer_fixpoint (components : list string) (path_str : string) :
  Forall (fun c => lacks ":" c = true) components ->
  replacer components (join_colon (insert_components components (split_colon path_str)))
  = replacer components path_str.
Proof.
  intros Hc. unfold replacer.
  rewrite split_join_colon.
  - destruct (insert_components_spec components (split_colon path_str)) as (_ & _ & _ & _ & Hall).
    rewrite (insert_components_noop _ _ Hall). reflexivity.
  - apply insert_components_nonempty, split_colon_nonempty.
  - apply insert_components_lacks; [exact Hc|apply split_colon_lacks].
Qed.

Lemma sub_path_no_marker (fuel : nat) (components : list string) (s : string) :
  str_contains path_marker s = false -> sub_path fuel components s = s.
Proof.
  revert s. induction fuel as [|fuel IH]; intros s H; [reflexivity|].
  destruct s as [|c s']; [reflexivity|].
  cbn [str_contains] in H. apply orb_false_iff in H as [Hp Hs].
  cbn [sub_path]. rewrite Hp, IH by exact Hs. reflexivity.
Qed.

(** X14: [update_path] leaves a [.zshrc] without any ["export PATH="] and
    without carriage returns unchanged. *)
Theorem update_path_without_export_line (contents : string) (components : list string) :
  lacks "013" contents = true ->
  str_contains path_marker contents = false ->
  update_path (Some contents) components = Some contents.
Proof.
  intros Hcr H. unfold update_path. rewrite universal_newlines_id by exact Hcr.
  rewrite sub_path_no_marker by exact H. reflexivity.
Qed.

Lemma update_path_without_export_line_witness :
  lacks "013" "alias a=b" = true /\ str_contains path_marker "alias a=b" = false /\
  update_path (Some "alias a=b") ["/opt/bin"] = Some "alias a=b".
Proof.
  split; [vm_compute; reflexivity|]. split; [vm_compute; reflexivity|].
  apply update_path_without_export_line; vm_compute; reflexivity.
Defined.

Lemma replace_char_app (o : ascii) (n x y : string) :
  replace_char o n (x ++ y) = replace_char o n x ++ replace_char o n y.
Proof.
  induction x as [|c x IH]; [reflexivity|].
  change (String c x ++ y) with (String c (x ++ y)). cbn [replace_char]. rewrite IH.
  destruct (Ascii.eqb c o); [symmetry; apply string_append_assoc|reflexivity].
Qed.

Lemma replace_char_lacks (o : ascii) (n x : string) : lacks o x = true -> replace_char o n x = x.
Proof.
  induction x as [|c x IH]; [reflexivity|].
  unfold lacks. cbn [list_ascii_of_string existsb]. intros H.
  apply negb_true_iff, orb_false_iff in H as [Hc Hx]. rewrite Ascii.eqb_sym in Hc.
  cbn [replace_char]. rewrite Hc, IH; [reflexivity|]. unfold lacks. rewrite Hx. reflexivity.
Qed.

Lemma replace_char_removes (o : ascii) (n s : string) :
  lacks o n = true -> lacks o (replace_char o n s) = true.
Proof.
  intros Hn. induction s as [|c s IH]; [reflexivity|]. cbn [replace_char].
  destruct (Ascii.eqb c o) eqn:E.
  - rewrite lacks_app, Hn, IH. reflexivity.
  - unfold lacks in *. cbn [list_ascii_of_string existsb].
    rewrite Ascii.eqb_sym, E. exact IH.
Qed.

Lemma replace_char_keeps (o c0 : ascii) (n s : string) :
  lacks c0 n = true -> lacks c0 s = true -> lacks c0 (replace_char o n s) = true.
Proof.
  intros Hn. induction s as [|c s IH]; intros Hs; [reflexivity|].
  assert (Hs' : lacks c0 s = true /\ Ascii.eqb c0 c = false).
  { unfold lacks in Hs. cbn [list_ascii_of_string existsb] in Hs.
    apply negb_true_iff, orb_false_iff in Hs as [Hc Hs].
    unfold lacks. rewrite Hs. auto. }
  destruct Hs' as [Hs' Hc]. cbn [replace_char]. destruct (Ascii.eqb c o).
  - rewrite lacks_app, Hn, IH by exact Hs'. reflexivity.
  - unfold lacks in *. cbn [list_ascii_of_string existsb]. rewrite Hc. exact (IH Hs').
Qed.

(** X16: The ROOT version string built from a tag name
    ["v" ++ a ++ "-" ++ b ++ "-" ++ c], with [a], [b], [c] free of ["v"] and
    ["-"], is [a ++ "." ++ b ++ "." ++ c]; no version string contains ["v"] or ["-"]. *)
Theorem root_version_dotted (a b c : string) :
  lacks "v" a = true -> lacks "-" a = true -> lacks "v" b = true -> lacks "-" b = true ->
  lacks "v" c = true -> lacks "-" c = true ->
  root_version ("v" ++ a ++ "-" ++ b ++ "-" ++ c) = a ++ "." ++ b ++ "." ++ c /\
  (forall s, lacks "v" (root_version s) = true /\ lacks "-" (root_version s) = true).
Proof.
  intros Ha1 Ha2 Hb1 Hb2 Hc1 Hc2. split.
  - unfold root_version. rewrite !(replace_char_app "v" "").
    rewrite (replace_char_lacks "v" "" a Ha1), (replace_char_lacks "v" "" b Hb1),
      (replace_char_lacks "v" "" c Hc1).
    change (replace_char "v" "" "v") with "". change (replace_char "v" "" "-") with "-".
    rewrite !(replace_char_app "-" ".").
    rewrite (replace_char_lacks "-" "." a Ha2), (replace_char_lacks "-" "." b Hb2),
      (replace_char_lacks "-" "." c Hc2).
    reflexivity.
  - intros s. unfold root_version. split.
    + apply replace_char_keeps; [reflexivity|]. apply replace_char_removes. reflexivity.
    + apply replace_char_removes. reflexivity.
Qed.

Lemma root_version_dotted_witness :
  root_version ("v" ++ "6" ++ "-" ++ "22" ++ "-" ++ "00") = "6" ++ "." ++ "22" ++ "." ++ "00".
Proof.
  exact (proj1 (root_version_dotted "6" "22" "00" eq_refl eq_refl eq_refl eq_refl eq_refl eq_refl)).
Defined.

(** X17: In [install_pandoc], unpacking [(deb_path,) = changed_files] succeeds
    with [x] exactly when [x] is the only entry of [/tmp] that appeared during
    the download. *)
Theorem pandoc_deb_is_the_only_new_entry (before_files after_files : gset string) (x : string) :
  single_changed_file (snd (detect_changed_files before_files (Ok tt) after_files)) = Ok x <->
  after_files ∖ before_files = {[x]}.
Proof.
  unfold detect_changed_files, single_changed_file. simpl. rewrite union_empty_l_L.
  split.
  - destruct (elements (after_files ∖ before_files)) as [|y [|z l]] eqn:E; try discriminate.
    intros [= ->]. rewrite <- (list_to_set_elements_L (after_files ∖ before_files)), E.
    set_solver.
  - intros ->. rewrite elements_singleton. reflexivity.
Qed.

Lemma prefix_succ (d : Z) (ls ls' : list string) :
  (0 <= d)%Z -> prefix (mkLstate (d + 1) ls') = "   " ++ prefix (mkLstate d ls).
Proof.
  intros Hd. unfold prefix. simpl depth. rewrite Z2Nat.inj_add by lia. simpl.
  rewrite Nat.add_1_r. simpl repeat.
  destruct (repeat "   " (Z.to_nat d)) as [|x l] eqn:E; [reflexivity|]. reflexivity.
Qed.

(** X18: When the wrapped function returns, [installer] logs ["Running ..."]
    at the caller's depth, the function's lines, then ["Finished ..."] at the
    caller's depth, and restores the depth. *)
Theorem installer_success (func_string : string) {A : Type} (func : lstate -> res A * lstate)
    (d : Z) (ls added : list string) (v : A) :
  let running := app ls [prefix (mkLstate d ls) ++ "Running " ++ func_string] in
  func (mkLstate (d + 1) running) = (Ok v, mkLstate (d + 1) (app running added)) ->
  installer func_string func (mkLstate d ls)
  = (Ok v, mkLstate d (app (app running added) [prefix (mkLstate d ls) ++ "Finished " ++ func_string])).
Proof.
  intros running H. unfold installer, context, log. simpl depth. simpl log_lines.
  fold running. rewrite H. simpl. replace (d + 1 - 1)%Z with d by lia. reflexivity.
Qed.

Lemma installer_success_witness :
  installer "f()" (fun st => (Ok 1%Z, mkLstate (depth st) (app (log_lines st) ["x"]))) (mkLstate 0 [])
  = (Ok 1%Z, mkLstate 0 ["Running f()"; "x"; "Finished f()"]).
Proof.
  rewrite (installer_success "f()" (fun st => (Ok 1%Z, mkLstate (depth st) (app (log_lines st) ["x"])))
             0 [] ["x"] 1%Z eq_refl).
  vm_compute. reflexivity.
Defined.

(** X19: When the wrapped function raises, [installer] logs ["Execution of ...
    failed"] one level deeper than the caller, re-raises the exception, and
    leaves the depth one level deeper. *)
Theorem installer_failure (func_string : string) {A : Type} (func : lstate -> res A * lstate)
    (d : Z) (ls after : list string) (e : exn) :
  (0 <= d)%Z ->
  let running := app ls [prefix (mkLstate d ls) ++ "Running " ++ func_string] in
  func (mkLstate (d + 1) running) = (Err e, mkLstate (d + 1) after) ->
  installer func_string func (mkLstate d ls)
  = (Err e, mkLstate (d + 1)
              (app after ["   " ++ prefix (mkLstate d ls) ++ "Execution of " ++ func_string ++ " failed"])).
Proof.
  intros Hd running H. unfold installer, context, log. simpl depth. simpl log_lines.
  fold running. rewrite H. simpl. rewrite (prefix_succ d ls after Hd). reflexivity.
Qed.

Lemma installer_failure_witness :
  installer "f()" (fun st => (Err (ValueError "x") : res unit, st)) (mkLstate 0 [])
  = (Err (ValueError "x"), mkLstate 1 ["Running f()"; "   Execution of f() failed"]).
Proof.
  rewrite (installer_failure "f()" (fun st => (Err (ValueError "x") : res unit, st)) 0 [] ["Running f()"]
             (ValueError "x") ltac:(lia) eq_refl).
  vm_compute. reflexivity.
Defined.

(** X20: [find_latest_github_tag] raises [ValueError] on a well-formed response
    exactly when the repository has no tags. *)
Theorem latest_tag_value_error_iff_no_tags (token : string) (refs : list tag_ref) :
  (exists m, find_latest_github_tag token
               (github_refs_response find_latest_github_tag_query refs) = Err (ValueError m))
  <-> refs = [].
Proof.
  split.
  - intros [m H]. destruct refs as [|r rs]; [reflexivity|]. exfalso.
    destruct (sort_by_head find_latest_github_tag_query
                (fun a b c Hab Hbc => string_leb_trans _ _ _ Hbc Hab)
                (fun a b H => string_leb_flip _ _ H) (r :: rs) ltac:(discriminate))
      as (h & t & Hs & _ & _).
    unfold github_refs_response in H. rewrite Hs in H. simpl take in H. unfold edge_json in H.
    destruct h as [hn hd ht]. cbn [ref_target ref_name] in H. revert H.
    destruct ht as [oid url|tn o|oid|oid]; [| destruct o | |];
      simpl; intros H; discriminate H.
  - intros ->. exists "not enough values to unpack (expected 1, got 0)". reflexivity.
Qed.

Lemma concat_newline_cons (x : string) (l : list string) :
  l <> [] -> String.concat newline (x :: l) = x ++ newline ++ String.concat newline l.
Proof. destruct l; [congruence|reflexivity]. Qed.

Lemma concat_map_after_ice (ice : string) (f : string -> string) (ps : list string) :
  String.concat newline (map (fun p => (ice ++ newline) ++ f p) ps)
  = String.concat newline (flat_map (fun p => [ice; f p]) ps).
Proof.
  induction ps as [|p ps IH]; [reflexivity|].
  destruct ps as [|p' ps'].
  - simpl. rewrite !string_append_assoc. reflexivity.
  - set (g := fun p => (ice ++ newline) ++ f p) in *.
    set (h := fun p => [ice; f p]) in *.
    change (map g (p :: p' :: ps')) with (g p :: map g (p' :: ps')).
    rewrite concat_newline_cons by discriminate. rewrite IH.
    change (flat_map h (p :: p' :: ps')) with (ice :: f p :: flat_map h (p' :: ps')).
    rewrite (concat_newline_cons ice) by discriminate.
    rewrite (concat_newline_cons (f p)) by (simpl; discriminate).
    unfold g. rewrite !string_append_assoc. reflexivity.
Qed.

(** X21: With ices, [install_zinit_plugins] appends, for each plugin in order,
    a ["zinit ice ..."] line followed by its ["zinit <loader> <plugin>"] line. *)
Theorem zinit_ice_before_each_plugin (zshrc : zshrc_file) (loader : string) (plugins ices : list string) :
  ices <> [] ->
  install_zinit_plugins zshrc loader plugins ices
  = append_to_zshrc zshrc
      (flat_map (fun p => ["zinit ice " ++ String.concat " " ices; "zinit " ++ loader ++ " " ++ p])
                plugins).
Proof.
  intros Hi. unfold install_zinit_plugins, append_to_zshrc. do 2 f_equal.
  unfold join_lines, zinit_plugin_strings.
  destruct ices as [|i is]; [congruence|].
  rewrite <- concat_map_after_ice.
  f_equal; apply map_ext; intros p; rewrite !string_append_assoc; reflexivity.
Qed.

Lemma zinit_ice_before_each_plugin_witness :
  install_zinit_plugins (Some "") "light" ["p"] ["wait"]
  = append_to_zshrc (Some "") ["zinit ice wait"; "zinit light p"].
Proof.
  exact (zinit_ice_before_each_plugin (Some "") "light" ["p"] ["wait"] ltac:(discriminate)).
Defined.


Lemma str_length_app (x y : string) : String.length (x ++ y) = (String.length x + String.length y)%nat.
Proof. induction x as [|c x IH]; [reflexivity|]. change (S (String.length (x ++ y)) = S (String.length x + String.length y))%nat. lia. Qed.

Lemma prefix_app (p y : string) : String.prefix p (p ++ y) = true.
Proof.
  induction p as [|a p IH]; [destruct y; reflexivity|].
  change (String.prefix (String a p) (String a (p ++ y)) = true).
  cbn [String.prefix]. destruct (ascii_dec a a); [exact IH|congruence].
Qed.

Lemma prefix_split (p s : string) : String.prefix p s = true -> s = p ++ str_drop (String.length p) s.
Proof.
  revert s. induction p as [|a p IH]; intros s H; [reflexivity|].
  destruct s as [|b s]; [discriminate|].
  cbn [String.prefix] in H. destruct (ascii_dec a b) as [<-|]; [|discriminate].
  change (String a s = String a (p ++ str_drop (String.length p) s)). rewrite <- IH by exact H.
  reflexivity.
Qed.

Lemma str_drop_app (p y : string) : str_drop (String.length p) (p ++ y) = y.
Proof. induction p as [|a p IH]; [reflexivity|exact IH]. Qed.

Lemma prefix_common (p u x y : string) :
  (String.length p <= String.length u)%nat ->
  String.prefix p (u ++ x) = String.prefix p (u ++ y).
Proof.
  revert u. induction p as [|a p IH]; intros u H; [destruct (u ++ x), (u ++ y); reflexivity|].
  destruct u as [|b u]; [simpl in H; lia|].
  change (String.prefix (String a p) (String b (u ++ x))
          = String.prefix (String a p) (String b (u ++ y))).
  cbn [String.prefix]. destruct (ascii_dec a b); [|reflexivity].
  apply IH. simpl in H. lia.
Qed.

Lemma skip_quote_length (s : string) : (String.length (skip_quote s) <= String.length s)%nat.
Proof. destruct s as [|c s]; [reflexivity|]. unfold skip_quote. destruct (Ascii.eqb c "034"); simpl; lia. Qed.

Lemma take_value_app (s v a : string) : take_value s = (v, a) -> s = v ++ a.
Proof.
  revert v a. induction s as [|c s IH]; intros v a H.
  - simpl in H. injection H as <- <-. reflexivity.
  - cbn [take_value] in H. destruct (Ascii.eqb c "034" || Ascii.eqb c "010").
    + injection H as <- <-. reflexivity.
    + destruct (take_value s) as [v' a'] eqn:E. injection H as <- <-.
      change (String c s = String c (v' ++ a')). rewrite <- (IH _ _ eq_refl). reflexivity.
Qed.

Lemma take_value_fst_lacks (s v a : string) :
  take_value s = (v, a) -> lacks "034" v = true /\ lacks "010" v = true.
Proof.
  revert v a. induction s as [|c s IH]; intros v a H.
  - simpl in H. injection H as <- <-. split; reflexivity.
  - cbn [take_value] in H. destruct (Ascii.eqb c "034" || Ascii.eqb c "010") eqn:Ec.
    + injection H as <- <-. split; reflexivity.
    + destruct (take_value s) as [v' a'] eqn:E. injection H as <- <-.
      destruct (IH _ _ eq_refl) as [H1 H2]. apply orb_false_iff in Ec as [E1 E2].
      unfold lacks in *. cbn [list_ascii_of_string existsb].
      rewrite Ascii.eqb_sym in E1. rewrite Ascii.eqb_sym in E2.
      rewrite E1, E2. split; assumption.
Qed.

Lemma take_value_lacks_app (v z : string) :
  lacks "034" v = true -> lacks "010" v = true ->
  take_value (v ++ String "034" z) = (v, String "034" z).
Proof.
  induction v as [|c v IH]; intros H1 H2; [reflexivity|].
  unfold lacks in H1, H2. cbn [list_ascii_of_string existsb] in H1, H2.
  apply negb_true_iff, orb_false_iff in H1 as [E1 H1].
  apply negb_true_iff, orb_false_iff in H2 as [E2 H2].
  change (take_value (String c (v ++ String "034" z)) = (String c v, String "034" z)).
  cbn [take_value]. rewrite Ascii.eqb_sym in E1. rewrite Ascii.eqb_sym in E2.
  rewrite E1, E2. cbn [orb].
  rewrite IH; [reflexivity| |]; unfold lacks; apply negb_true_iff; assumption.
Qed.

Lemma split_colon_lacks_char (c : ascii) (s : string) :
  Ascii.eqb c ":" = false -> lacks c s = true -> Forall (fun x => lacks c x = true) (split_colon s).
Proof.
  intros Hc. induction s as [|a s IH]; intros H.
  - constructor; [reflexivity|constructor].
  - unfold lacks in H. cbn [list_ascii_of_string existsb] in H.
    apply negb_true_iff, orb_false_iff in H as [Ea H].
    assert (Hs : lacks c s = true) by (unfold lacks; rewrite H; reflexivity).
    specialize (IH Hs). cbn [split_colon].
    destruct (Ascii.eqb a ":").
    + constructor; [reflexivity|exact IH].
    + destruct (split_colon s) as [|x xs].
      * constructor; [|constructor]. unfold lacks. cbn [list_ascii_of_string existsb].
        rewrite Ea. reflexivity.
      * inversion IH as [|? ? Hx Hxs]; subst.
        constructor; [|exact Hxs]. unfold lacks in *. cbn [list_ascii_of_string existsb].
        rewrite Ea. exact Hx.
Qed.

Lemma join_colon_lacks_char (c : ascii) (l : list string) :
  Ascii.eqb c ":" = false -> Forall (fun x => lacks c x = true) l -> lacks c (join_colon l) = true.
Proof.
  intros Hc Hl. unfold join_colon. induction Hl as [|x l Hx Hl IH]; [reflexivity|].
  destruct l as [|y l].
  - exact Hx.
  - change (lacks c (x ++ ":" ++ String.concat ":" (y :: l)) = true).
    rewrite !lacks_app, Hx, IH. unfold lacks. cbn [list_ascii_of_string existsb].
    rewrite Hc. reflexivity.
Qed.

Lemma insert_components_forall (P : string -> Prop) (components path : list string) :
  Forall P components -> Forall P path -> Forall P (insert_components components path).
Proof.
  revert path. induction components as [|c cs IH]; intros path Hc Hp; simpl; [exact Hp|].
  inversion Hc; subst. apply IH; [assumption|].
  destruct (mem c path); [exact Hp|constructor; assumption].
Qed.

Lemma sub_path_step_prefix (fuel : nat) (components : list string) (s : string) :
  String.prefix path_marker s = true ->
  sub_path (S fuel) components s =
    let '(value, after) := take_value (skip_quote (str_drop (String.length path_marker) s)) in
    replacer components value ++ sub_path fuel components (skip_quote after).
Proof.
  intros H. destruct s as [|c s]; [discriminate|]. cbn [sub_path]. rewrite H. reflexivity.
Qed.

Lemma sub_path_step_other (fuel : nat) (components : list string) (c : ascii) (s : string) :
  String.prefix path_marker (String c s) = false ->
  sub_path (S fuel) components (String c s) = String c (sub_path fuel components s).
Proof. intros H. cbn [sub_path]. rewrite H. reflexivity. Qed.

Lemma sub_path_fuel (components : list string) (f1 f2 : nat) (s : string) :
  (String.length s <= f1)%nat -> (String.length s <= f2)%nat ->
  sub_path f1 components s = sub_path f2 components s.
Proof.
  revert f2 s. induction f1 as [|f1 IH]; intros f2 s H1 H2.
  - destruct s; [destruct f2; reflexivity|simpl in H1; lia].
  - destruct s as [|c s']; [destruct f2; reflexivity|].
    destruct f2 as [|f2]; [simpl in H2; lia|].
    destruct (String.prefix path_marker (String c s')) eqn:Hp.
    + rewrite !sub_path_step_prefix by exact Hp.
      pose proof (prefix_split _ _ Hp) as Hs.
      set (D := str_drop (String.length path_marker) (String c s')) in *.
      destruct (take_value (skip_quote D)) as [v a] eqn:E.
      apply take_value_app in E.
      assert (L : (String.length (skip_quote a) + 12 <= String.length (String c s'))%nat).
      { rewrite Hs. rewrite str_length_app.
        pose proof (skip_quote_length a). pose proof (skip_quote_length D).
        rewrite E, str_length_app in H0. change (String.length path_marker) with 12%nat. lia. }
      f_equal. apply IH; simpl in *; lia.
    + rewrite !sub_path_step_other by exact Hp. f_equal. apply IH; simpl in *; lia.
Qed.

Lemma str_drop_lacks (ch : ascii) (n : nat) (s : string) :
  lacks ch s = true -> lacks ch (str_drop n s) = true.
Proof.
  revert s. induction n as [|n IH]; intros s H; [exact H|].
  destruct s as [|c s]; [reflexivity|]. cbn [str_drop]. apply IH.
  rewrite lacks_cons in H. apply andb_true_iff in H as [_ H]. exact H.
Qed.

Lemma skip_quote_lacks (ch : ascii) (s : string) :
  lacks ch s = true -> lacks ch (skip_quote s) = true.
Proof.
  intros H. destruct s as [|c s]; [exact H|]. unfold skip_quote.
  destruct (Ascii.eqb c "034"); [|exact H].
  rewrite lacks_cons in H. apply andb_true_iff in H as [_ H]. exact H.
Qed.

(** [sub_path] adds no character that is neither in its input nor in a
    component, other than a colon, a double quote or a letter of
    ["export PATH="]. *)
Lemma sub_path_lacks (ch : ascii) (fuel : nat) (components : list string) (s : string) :
  Ascii.eqb ch ":" = false -> lacks ch path_marker = true -> lacks ch dquote = true ->
  Forall (fun x => lacks ch x = true) components ->
  lacks ch s = true -> lacks ch (sub_path fuel components s) = true.
Proof.
  intros Hcol Hm Hq Hc. revert s. induction fuel as [|fuel IH]; intros s Hs; [exact Hs|].
  destruct s as [|c s']; [reflexivity|].
  destruct (String.prefix path_marker (String c s')) eqn:Hp.
  - rewrite (sub_path_step_prefix fuel components _ Hp).
    destruct (take_value (skip_quote (str_drop (String.length path_marker) (String c s'))))
      as [value after] eqn:Ht.
    pose proof (take_value_app _ _ _ Ht) as Happ.
    assert (Hva : lacks ch (value ++ after) = true)
      by (rewrite <- Happ; apply skip_quote_lacks, str_drop_lacks, Hs).
    rewrite lacks_app in Hva. apply andb_true_iff in Hva as [Hv Ha].
    rewrite lacks_app, IH by (apply skip_quote_lacks, Ha).
    unfold replacer. change "export PATH=" with path_marker.
    rewrite !lacks_app, Hm, Hq, join_colon_lacks_char; [reflexivity|exact Hcol|].
    apply insert_components_forall; [exact Hc|]. apply split_colon_lacks_char; assumption.
  - rewrite (sub_path_step_other fuel components c s' Hp).
    rewrite lacks_cons in Hs |- *. apply andb_true_iff in Hs as [Hch Hs].
    rewrite Hch, IH by exact Hs. reflexivity.
Qed.

Section SubAll.
Variable components : list string.

Local Abbreviation sub_all s := (sub_path (String.length s) components s).

Lemma sub_all_marker (w : string) :
  sub_all (path_marker ++ w) =
    let '(value, after) := take_value (skip_quote w) in
    replacer components value ++ sub_all (skip_quote after).
Proof.
  change (String.length (path_marker ++ w)) with (S (String.length ("xport PATH=" ++ w))).
  rewrite sub_path_step_prefix by apply prefix_app.
  rewrite str_drop_app.
  destruct (take_value (skip_quote w)) as [v a] eqn:E. apply take_value_app in E.
  f_equal. apply sub_path_fuel; [|lia].
  pose proof (skip_quote_length a). pose proof (skip_quote_length w).
  rewrite E, str_length_app in H0. rewrite str_length_app. lia.
Qed.

Lemma sub_all_other (c : ascii) (s : string) :
  String.prefix path_marker (String c s) = false -> sub_all (String c s) = String c (sub_all s).
Proof. intros H. apply sub_path_step_other, H. Qed.

Lemma sub_all_shape (s : string) :
  sub_all s = s \/
  exists u x y, s = u ++ x /\ sub_all s = u ++ y /\ (12 <= String.length u)%nat.
Proof.
  induction s as [|c s IH]; [left; reflexivity|].
  destruct (String.prefix path_marker (String c s)) eqn:Hp.
  - right. pose proof (prefix_split _ _ Hp) as Hs.
    set (D := str_drop (String.length path_marker) (String c s)) in *.
    assert (Hm : sub_all (String c s) = sub_all (path_marker ++ D)) by (rewrite <- Hs; reflexivity).
    rewrite sub_all_marker in Hm. destruct (take_value (skip_quote D)) as [v a].
    unfold replacer in Hm. rewrite string_append_assoc in Hm.
    exists path_marker, D. eexists. split; [exact Hs|]. split; [exact Hm|reflexivity].
  - rewrite sub_all_other by exact Hp.
    destruct IH as [E|(u & x & y & E1 & E2 & L)].
    + left. rewrite E. reflexivity.
    + right. exists (String c u), x, y. rewrite E1 at 1. rewrite E2.
      split; [reflexivity|]. split; [reflexivity|]. simpl. lia.
Qed.

Hypothesis components_plain :
  Forall (fun c => lacks ":" c = true /\ lacks "034" c = true /\ lacks "010" c = true) components.

Lemma sub_all_replacer (v z : string) :
  lacks "034" v = true -> lacks "010" v = true ->
  sub_all (replacer components v ++ z) = replacer components v ++ sub_all z.
Proof.
  intros H1 H2.
  pose proof components_plain as Hp. rewrite Forall_forall in Hp.
  set (J := join_colon (insert_components components (split_colon v))).
  assert (HJ : forall ch, Ascii.eqb ch ":" = false -> lacks ch v = true ->
            Forall (fun x => lacks ch x = true) components -> lacks ch J = true).
  { intros ch Hch Hv Hcs. apply join_colon_lacks_char; [exact Hch|].
    apply insert_components_forall; [exact Hcs|]. apply split_colon_lacks_char; assumption. }
  assert (HJ1 : lacks "034" J = true).
  { apply HJ; [reflexivity|exact H1|]. apply Forall_forall. intros x Hx. apply Hp, Hx. }
  assert (HJ2 : lacks "010" J = true).
  { apply HJ; [reflexivity|exact H2|]. apply Forall_forall. intros x Hx. apply Hp, Hx. }
  assert (E : replacer components v ++ z = path_marker ++ String "034" (J ++ String "034" z)).
  { unfold replacer, dquote. fold J. rewrite !string_append_assoc. reflexivity. }
  rewrite E, sub_all_marker.
  change (skip_quote (String "034" (J ++ String "034" z))) with (J ++ String "034" z).
  rewrite take_value_lacks_app by assumption.
  change (skip_quote (String "034" z)) with z.
  f_equal. unfold J. apply replacer_fixpoint.
  apply Forall_forall. intros x Hx. apply Hp, Hx.
Qed.

Lemma sub_all_idempotent (s : string) : sub_all (sub_all s) = sub_all s.
Proof.
  enough (H : forall n s, (String.length s <= n)%nat -> sub_all (sub_all s) = sub_all s)
    by exact (H _ s (le_n _)).
  clear s. intros n. induction n as [|n IH]; intros s Hn.
  - destruct s; [reflexivity|simpl in Hn; lia].
  - destruct s as [|c s']; [reflexivity|].
    destruct (String.prefix path_marker (String c s')) eqn:Hp.
    + pose proof (prefix_split _ _ Hp) as Hs.
      rewrite Hs. rewrite sub_all_marker.
      set (D := str_drop (String.length path_marker) (String c s')) in *.
      destruct (take_value (skip_quote D)) as [v a] eqn:E.
      destruct (take_value_fst_lacks _ _ _ E) as [H1 H2].
      apply take_value_app in E.
      rewrite sub_all_replacer by assumption. f_equal. apply IH.
      pose proof (skip_quote_length a). pose proof (skip_quote_length D).
      rewrite E, str_length_app in H0. rewrite Hs, str_length_app in Hn.
      change (String.length path_marker) with 12%nat in Hn. lia.
    + rewrite sub_all_other by exact Hp.
      rewrite sub_all_other.
      * f_equal. apply IH. simpl in Hn. lia.
      * rewrite <- Hp. destruct (sub_all_shape s') as [E|(u & x & y & E1 & E2 & L)].
        { rewrite E. reflexivity. }
        rewrite E2, E1.
        change (String c (u ++ y)) with (String c u ++ y).
        change (String c (u ++ x)) with (String c u ++ x).
        apply prefix_common. simpl. lia.
Qed.

End SubAll.

(** X15: Running [update_path] twice with the same components gives the same
    [.zshrc] as running it once, when no component contains a colon, a double
    quote, a newline or a carriage return. *)
Theorem update_path_idempotent (zshrc : zshrc_file) (components : list string) :
  Forall (fun c => lacks ":" c = true /\ lacks "034" c = true /\ lacks "010" c = true) components ->
  Forall (fun c => lacks "013" c = true) components ->
  update_path (update_path zshrc components) components = update_path zshrc components.
Proof.
  intros Hc Hcr. destruct zshrc as [raw|]; [|reflexivity].
  unfold update_path. cbv zeta. f_equal.
  set (contents := universal_newlines raw).
  rewrite (universal_newlines_id (sub_path (String.length contents) components contents)).
  - apply (sub_all_idempotent components Hc contents).
  - apply sub_path_lacks; [reflexivity|reflexivity|reflexivity|exact Hcr|].
    apply universal_newlines_no_cr.
Qed.

Lemma update_path_idempotent_witness :
  Forall (fun c => lacks ":" c = true /\ lacks "034" c = true /\ lacks "010" c = true) ["/opt/bin"] /\
  Forall (fun c => lacks "013" c = true) ["/opt/bin"] /\
  update_path (update_path (Some ("export PATH=" ++ dquote ++ "/usr/bin" ++ dquote)) ["/opt/bin"])
    ["/opt/bin"]
  = Some ("export PATH=" ++ dquote ++ "/opt/bin:/usr/bin" ++ dquote).
Proof.
  assert (Hc : Forall (fun c => lacks ":" c = true /\ lacks "034" c = true /\ lacks "010" c = true)
                 ["/opt/bin"]).
  { constructor; [split; [reflexivity|split; reflexivity]|constructor]. }
  assert (Hcr : Forall (fun c => lacks "013" c = true) ["/opt/bin"])
    by (constructor; [reflexivity|constructor]).
  split; [exact Hc|]. split; [exact Hcr|].
  rewrite (update_path_idempotent _ _ Hc Hcr). vm_compute. reflexivity.
Defined.
